(** * nitropdftool: upload validators and the CSV asset importer

    A shallow embedding of [drawings/validators.py] and
    [drawings/services/csv_importer.py], with the properties the design
    document states about them.

    Conventions.
    - A Python [str] is a [string]; only ASCII case folding and ASCII
      white space are modelled.  A Python [bytes] is a [list byte].
    - A Python [int] is a [Z]; counters that only grow from 0 are [nat].
    - A Python exception is a value of an error type; a function that
      may raise returns an outcome with a constructor for the raise.
    - The database is an explicit record of tables that every operation
      takes and returns. *)

From Stdlib Require Import ZArith List String Ascii.
From Stdlib.Strings Require Import Byte.
From stdpp Require Import base option list gmap strings pretty.

Open Scope string_scope.

(** ** Python builtins used by the two modules *)

Module Py.

(** [str.isspace] on the ASCII range. *)
Definition isspace (c : ascii) : bool :=
  match c with
  | "009" | "010" | "011" | "012" | "013"
  | "028" | "029" | "030" | "031" | " " => true
  | _ => false
  end%char.

Fixpoint lstrip_with (space : ascii -> bool) (s : string) : string :=
  match s with
  | String c s' => if space c then lstrip_with space s' else s
  | EmptyString => EmptyString
  end.

Definition strip_with (space : ascii -> bool) (s : string) : string :=
  String.rev (lstrip_with space (String.rev (lstrip_with space s))).

(** [s.strip()] on ASCII text.  Python strips the white space of
    Unicode as well (U+0085, U+00A0, U+2000 and so on). *)
Definition strip (s : string) : string := strip_with isspace s.

Definition lower_char (c : ascii) : ascii :=
  let n := N_of_ascii c in
  if (65 <=? n)%N && (n <=? 90)%N then ascii_of_N (n + 32) else c.

(** [s.lower()] on ASCII text.  Python folds the letters of Unicode as
    well. *)
Fixpoint lower (s : string) : string :=
  match s with
  | String c s' => String (lower_char c) (lower s')
  | EmptyString => EmptyString
  end.

(** [c in s] for a one-character [c]. *)
Fixpoint contains_char (c : ascii) (s : string) : bool :=
  match s with
  | String d s' => if Ascii.eqb c d then true else contains_char c s'
  | EmptyString => false
  end.

Fixpoint split_go (sep : ascii) (s cur : string) : list string :=
  match s with
  | String c s' =>
      if Ascii.eqb c sep then String.rev cur :: split_go sep s' EmptyString
      else split_go sep s' (String c cur)
  | EmptyString => [String.rev cur]
  end.

(** [s.split(sep)] for a one-character separator. *)
Definition split (sep : ascii) (s : string) : list string :=
  split_go sep s EmptyString.

(** [s.endswith(suffix)] *)
Definition endswith (s suffix : string) : bool :=
  String.prefix (String.rev suffix) (String.rev s).

(** [b.startswith(prefix)] on bytes. *)
Fixpoint startswith (b pre : list byte) : bool :=
  match pre, b with
  | [], _ => true
  | p :: pre', x :: b' => Byte.eqb p x && startswith b' pre'
  | _ :: _, [] => false
  end.

(** [not s] for a string. *)
Definition falsy (s : string) : bool :=
  match s with EmptyString => true | _ => false end.

(** *** [float(s)]

    The grammar is the one of CPython's [float_from_string]: the white
    space of C's [isspace] is stripped (on ASCII, less than [str.strip]
    removes), single underscores may separate digits, then an optional
    sign followed by [inf], [infinity] or [nan] in any case, or by a
    decimal numeral with an optional exponent.  The whole text has to
    match, otherwise [ValueError] is raised ([None] here).

    A parsed float is kept as the decimal the text denotes; rounding to
    binary64 is not modelled, except that a decimal at or above the
    overflow threshold [2^1024 - 2^970] is the infinity it rounds to. *)

Inductive pyfloat :=
  | FNan
  | FInf (negative : bool)
  | FDec (negative : bool) (mantissa : N) (exp10 : Z).

Definition isfinite (f : pyfloat) : bool :=
  match f with FDec _ _ _ => true | _ => false end.

Definition is_digit (c : ascii) : bool :=
  match Ascii.is_nat c with Some _ => true | None => false end.

(** Underscores are allowed only between two digits; they are removed. *)
Fixpoint drop_underscores (prev : option ascii) (s : string) : option string :=
  match s with
  | EmptyString =>
      match prev with Some "_"%char => None | _ => Some EmptyString end
  | String c s' =>
      if Ascii.eqb c "_" then
        match prev with
        | Some p => if is_digit p then drop_underscores (Some c) s' else None
        | None => None
        end
      else
        match prev with
        | Some "_"%char =>
            if is_digit c then String c <$> drop_underscores (Some c) s'
            else None
        | _ => String c <$> drop_underscores (Some c) s'
        end
  end.

Definition take_sign (s : string) : bool * string :=
  match s with
  | String "-" s' => (true, s')
  | String "+" s' => (false, s')
  | _ => (false, s)
  end.

(** The longest prefix of digits, with the rest of the text. *)
Fixpoint span_digits (s : string) : list nat * string :=
  match s with
  | String c s' =>
      match Ascii.is_nat c with
      | Some d => let '(ds, r) := span_digits s' in (d :: ds, r)
      | None => ([], s)
      end
  | EmptyString => ([], EmptyString)
  end.

Definition digits_value (ds : list nat) : N :=
  foldl (fun acc d => (10 * acc + N.of_nat d)%N) 0%N ds.

Definition overflow_threshold : Z := 2 ^ 1024 - 2 ^ 970.

Definition overflows (m : N) (e : Z) : bool :=
  if (0 <=? e)%Z then (overflow_threshold <=? Z.of_N m * 10 ^ e)%Z
  else (overflow_threshold * 10 ^ (- e) <=? Z.of_N m)%Z.

Definition make_float (neg : bool) (m : N) (e : Z) : pyfloat :=
  if overflows m e then FInf neg else FDec neg m e.

Definition parse_special (neg : bool) (s : string) : option pyfloat :=
  let l := lower s in
  if String.eqb l "inf" || String.eqb l "infinity" then Some (FInf neg)
  else if String.eqb l "nan" then Some FNan
  else None.

Definition parse_decimal (neg : bool) (s : string) : option pyfloat :=
  let '(ip, r1) := span_digits s in
  let '(fp, r2) :=
    match r1 with
    | String "." r => span_digits r
    | _ => ([], r1)
    end in
  match (ip ++ fp)%list with
  | [] => None
  | _ :: _ =>
      let m := digits_value (ip ++ fp)%list in
      let scale := (- Z.of_nat (length fp))%Z in
      match r2 with
      | EmptyString => Some (make_float neg m scale)
      | String c r3 =>
          if Ascii.eqb c "e" || Ascii.eqb c "E" then
            let '(eneg, r4) := take_sign r3 in
            match span_digits r4 with
            | ((_ :: _) as ed, EmptyString) =>
                let e := Z.of_N (digits_value ed) in
                Some (make_float neg m (scale + (if eneg then - e else e)))
            | _ => None
            end
          else None
      end
  end.

(** [float(s)] on ASCII text; [None] stands for [ValueError].  Python
    reads the decimal digits and the white space of Unicode as well. *)
Definition float (s : string) : option pyfloat :=
  match drop_underscores None (strip_with Ascii.is_space s) with
  | None => None
  | Some t =>
      let '(neg, body) := take_sign t in
      match parse_special neg body with
      | Some f => Some f
      | None => parse_decimal neg body
      end
  end.

End Py.

(** ** [drawings/validators.py] *)

Module Validators.

Record UploadedFile := {
  name : string;
  size : Z;
  content : list byte;
}.

(** What the validators raise; one constructor per message. *)
Inductive ValidationError :=
  | FileSizeExceeds (file_size max_size : Z)
  | MustHavePdfExtension
  | InvalidPdfContent
  | InvalidFileExtension (ext : string)
  | InvalidImageContent.

Inductive outcome :=
  | Passes
  | Raises (e : ValidationError).

(** python-magic: [None] when the import failed ([HAS_MAGIC = False]),
    otherwise [magic.from_buffer(header, mime=True)], which yields a MIME
    type or raises ([None]). *)
Definition magic_lib := option (list byte -> option string).

Definition MB : Z := 1024 * 1024.

Record PDFFileValidator := { pdf_max_size : Z }.

Definition pdf_allowed_mime_types : list string := ["application/pdf"].
Definition pdf_default_max_size : Z := 50 * 1024 * 1024.

(** [PDFFileValidator(max_size)] *)
Definition PDFFileValidator_init (max_size : option Z) : PDFFileValidator :=
  {| pdf_max_size := default pdf_default_max_size max_size |}.

(** [file.read(2048)] after [file.seek(0)]. *)
Definition read_header (file : UploadedFile) : list byte :=
  take 2048 (content file).

Definition pdf_magic : list byte := [x25; x50; x44; x46; x2d].

(** [PDFFileValidator.__call__].  A [ValidationError] raised inside the
    [try] around the python-magic check is caught by its own
    [except Exception: pass], so that check never rejects. *)
Definition PDFFileValidator_call (self : PDFFileValidator) (magic : magic_lib)
    (file : UploadedFile) : outcome :=
  if (pdf_max_size self <? size file)%Z then
    Raises (FileSizeExceeds (size file) (pdf_max_size self))
  else if negb (Py.endswith (Py.lower (name file)) ".pdf") then
    Raises MustHavePdfExtension
  else
    let file_header := read_header file in
    if negb (Py.startswith file_header pdf_magic) then
      Raises InvalidPdfContent
    else
      match magic with
      | Some from_buffer =>
          match from_buffer file_header with
          | Some mime_type =>
              if bool_decide (mime_type ∈ pdf_allowed_mime_types) then Passes
              else Passes
          | None => Passes
          end
      | None => Passes
      end.

Record ImageFileValidator := { image_max_size : Z }.

Definition allowed_extensions : list string :=
  [".png"; ".jpg"; ".jpeg"; ".gif"; ".webp"].
Definition image_allowed_mime_types : list string :=
  ["image/png"; "image/jpeg"; "image/gif"; "image/webp"].
Definition image_default_max_size : Z := 5 * 1024 * 1024.

Definition ImageFileValidator_init (max_size : option Z) : ImageFileValidator :=
  {| image_max_size := default image_default_max_size max_size |}.

(** ['.' + file.name.lower().split('.')[-1] if '.' in file.name else ''] *)
Definition file_ext (file_name : string) : string :=
  if Py.contains_char "." file_name then
    "." ++ List.last (Py.split "." (Py.lower file_name)) ""
  else "".

Definition png_magic : list byte := [x89; x50; x4e; x47].
Definition jpeg_magic : list byte := [xff; xd8; xff].
Definition gif87a_magic : list byte := [x47; x49; x46; x38; x37; x61].
Definition gif89a_magic : list byte := [x47; x49; x46; x38; x39; x61].

Definition is_png (h : list byte) : bool := Py.startswith h png_magic.
Definition is_jpeg (h : list byte) : bool := Py.startswith h jpeg_magic.
Definition is_gif (h : list byte) : bool :=
  Py.startswith h gif87a_magic || Py.startswith h gif89a_magic.

(** The basic header checks that end [ImageFileValidator.__call__]. *)
Definition basic_header_checks (file_header : list byte) : outcome :=
  if negb (is_png file_header || is_jpeg file_header || is_gif file_header)
  then Raises InvalidImageContent
  else Passes.

(** [ImageFileValidator.__call__].  With python-magic an allowed MIME
    type returns at once; a MIME type that is not allowed raises inside
    the [try], is caught there, and falls through to the header checks,
    as does a failure of python-magic itself. *)
Definition ImageFileValidator_call (self : ImageFileValidator)
    (magic : magic_lib) (file : UploadedFile) : outcome :=
  if (image_max_size self <? size file)%Z then
    Raises (FileSizeExceeds (size file) (image_max_size self))
  else
    let ext := file_ext (name file) in
    if negb (bool_decide (ext ∈ allowed_extensions)) then
      Raises (InvalidFileExtension ext)
    else
      let file_header := read_header file in
      match magic with
      | Some from_buffer =>
          match from_buffer file_header with
          | Some mime_type =>
              if bool_decide (mime_type ∈ image_allowed_mime_types) then Passes
              else basic_header_checks file_header
          | None => basic_header_checks file_header
          end
      | None => basic_header_checks file_header
      end.

(** The convenience instances. *)
Definition validate_pdf : PDFFileValidator := PDFFileValidator_init None.
Definition validate_image : ImageFileValidator := ImageFileValidator_init None.

(** The signature a WEBP file starts with. *)
Definition riff_magic : list byte := [x52; x49; x46; x46].

Definition is_size_error (o : outcome) : bool :=
  match o with Raises (FileSizeExceeds _ _) => true | _ => false end.

End Validators.


(** ** [drawings/services/csv_importer.py] *)

Module CsvImporter.

Import Py.

(** *** The tables the importer reads and writes *)

(** Modelled from the spec: the [AssetType] model of [drawings/models.py],
    which is not among the sources.  The design document's data model
    gives the fields; an asset type is taken with its name only, its
    display attributes keep their defaults and play no part in the
    import. *)
Record AssetType := { at_name : string }.

(** Modelled from the spec: the [ImportBatch] model of
    [drawings/models.py], with the fields the importer sets. *)
Record ImportBatch := {
  ib_project : Z;
  ib_filename : string;
  ib_asset_count : nat;
}.

(** The [metadata] dictionary of an asset: the entries under column
    names, and the entry the reader files under its [restkey] ([None])
    when a record has more cells than the header. *)
Record Metadata := {
  md_columns : gmap string string;
  md_rest : option (list string);
}.

(** Modelled from the spec: the [Asset] model of [drawings/models.py].
    [a_adjusted] stands for [adjusted_x], [adjusted_y] and [is_adjusted],
    which the importer never writes. *)
Record Asset := {
  a_project : Z;
  a_asset_id : string;
  a_asset_type : AssetType;
  a_name : string;
  a_original_x : pyfloat;
  a_original_y : pyfloat;
  a_adjusted : option (pyfloat * pyfloat);
  a_metadata : Metadata;
  a_import_batch : option nat;
}.

(** A batch is referred to by its position in [import_batches]. *)
Record Database := {
  asset_types : list AssetType;
  import_batches : list ImportBatch;
  assets : list Asset;
}.

(** The fields [update_or_create] receives as [defaults]. *)
Record Defaults := {
  d_asset_type : AssetType;
  d_name : string;
  d_original_x : pyfloat;
  d_original_y : pyfloat;
  d_metadata : Metadata;
  d_import_batch : nat;
}.

Definition new_asset (project : Z) (asset_id : string) (d : Defaults) : Asset :=
  {| a_project := project; a_asset_id := asset_id;
     a_asset_type := d_asset_type d; a_name := d_name d;
     a_original_x := d_original_x d; a_original_y := d_original_y d;
     a_adjusted := None;
     a_metadata := d_metadata d; a_import_batch := Some (d_import_batch d) |}.

Definition apply_defaults (d : Defaults) (a : Asset) : Asset :=
  {| a_project := a_project a; a_asset_id := a_asset_id a;
     a_asset_type := d_asset_type d; a_name := d_name d;
     a_original_x := d_original_x d; a_original_y := d_original_y d;
     a_adjusted := a_adjusted a;
     a_metadata := d_metadata d; a_import_batch := Some (d_import_batch d) |}.

Definition asset_key (a : Asset) : Z * string := (a_project a, a_asset_id a).

(** Django's message for [MultipleObjectsReturned]; [get] fetches at
    most 21 rows. *)
Definition multiple_objects_message (num : nat) : string :=
  "get() returned more than one Asset -- it returned "
  ++ (if decide (num < 21) then pretty num else "more than 20") ++ "!".

(** [Asset.objects.update_or_create(project=.., asset_id=.., defaults=..)]:
    the rows with that project and asset id are looked up; none creates
    an asset, one is updated in place, several raise. *)
Definition update_or_create (project : Z) (asset_id : string) (d : Defaults)
    (table : list Asset) : string + list Asset * bool :=
  match filter (fun a => asset_key a = (project, asset_id)) table with
  | [] => inr ((table ++ [new_asset project asset_id d])%list, true)
  | [_] =>
      inr ((fun a =>
              if decide (asset_key a = (project, asset_id))
              then apply_defaults d a else a) <$> table, false)
  | l => inl (multiple_objects_message (length l))
  end.

(** *** The uploaded file as [csv.DictReader] sees it *)

(** [records] is what [csv.reader] yields for the decoded content, one
    list of cells per record, an empty list for a blank line; the
    tokenizer itself is the standard library's.  [file_name] is the
    file's [name] attribute when it has one. *)
Record CsvFile := {
  records : list (list string);
  file_name : option string;
}.

(** [reader.fieldnames]: the first record, [None] for an empty file. *)
Definition fieldnames (f : CsvFile) : option (list string) :=
  head (records f).

(** A row of the [DictReader]: a cell is a string, or [None] where the
    record was shorter than the header. *)
Record Row := {
  cells : gmap string (option string);
  rest : option (list string);
}.

Definition DictReader_row (fns : list string) (record : list string) : Row :=
  let d := foldl (fun d kv => <[kv.1 := Some kv.2]> d) ∅ (zip fns record) in
  let lf := length fns in
  let lr := length record in
  if decide (lf < lr) then
    {| cells := d; rest := Some (drop lf record) |}
  else
    {| cells := foldl (fun d key => <[key := None]> d) d (drop lr fns);
       rest := None |}.

(** The rows the loop iterates over: blank records are skipped. *)
Definition DictReader_rows (f : CsvFile) : list Row :=
  match records f with
  | [] => []
  | fns :: data =>
      DictReader_row fns <$> filter (fun r => r <> []) data
  end.

Inductive pyval :=
  | VStr (s : string)
  | VNone.

(** [row.get(col, '')] *)
Definition row_get (row : Row) (col : string) : pyval :=
  match cells row !! col with
  | Some (Some s) => VStr s
  | Some None => VNone
  | None => VStr ""
  end.

(** *** Column mapping *)

Definition DEFAULT_MAPPING : gmap string string :=
  <["asset_id" := "asset_id"]> (<["asset_type" := "asset_type"]>
  (<["x" := "x"]> (<["y" := "y"]> (<["name" := "name"]> ∅)))).

(** [{**DEFAULT_MAPPING, **(column_mapping or {})}] *)
Definition merge_mapping (column_mapping : option (gmap string string))
    : gmap string string :=
  default ∅ column_mapping ∪ DEFAULT_MAPPING.

(** [mapping.get(role, '')] *)
Definition mapping_get (mapping : gmap string string) (role : string) : string :=
  default "" (mapping !! role).

Definition required_roles : list string := ["asset_id"; "asset_type"; "x"; "y"].

Inductive exception :=
  | ValueError (msg : string)
  | TypeError (msg : string).

Definition describe_missing (role col : string) : string :=
  role ++ " (mapped to '" ++ col ++ "')".

(** [missing.append(..)] in front of what the remaining roles yield. *)
Definition missing_append (entry : string) (later : exception + list string)
    : exception + list string :=
  match later with
  | inl e => inl e
  | inr missing => inr (entry :: missing)
  end.

(** The loop that collects the roles whose column is missing.  On an
    empty file [fieldnames] is [None] and the membership test raises. *)
Fixpoint find_missing (fns : option (list string)) (mapping : gmap string string)
    (roles : list string) : exception + list string :=
  match roles with
  | [] => inr []
  | role :: roles' =>
      let col := mapping_get mapping role in
      if falsy col then
        missing_append (describe_missing role col) (find_missing fns mapping roles')
      else
        match fns with
        | None => inl (TypeError "argument of type 'NoneType' is not iterable")
        | Some l =>
            if decide (col ∈ l) then find_missing fns mapping roles'
            else missing_append (describe_missing role col)
                   (find_missing fns mapping roles')
        end
  end.

(** [', '.join(l)] *)
Fixpoint join_comma (l : list string) : string :=
  match l with
  | [] => ""
  | [s] => s
  | s :: l' => s ++ ", " ++ join_comma l'
  end.

(** *** The row loop *)

Record AssetEntry := {
  e_asset_id : string;
  e_created : bool;
  e_x : pyfloat;
  e_y : pyfloat;
}.

(** The [results] dictionary. *)
Record Results := {
  created : nat;
  updated : nat;
  errors : list string;
  r_assets : list AssetEntry;
}.

(** What the loop body reads and mutates: the database, the asset-type
    cache and [results]. *)
Record LoopState := {
  st_db : Database;
  st_cache : gmap string AssetType;
  st_results : Results;
}.

(** The variables the loop closes over. *)
Record Context := {
  project : Z;
  col_id : string;
  col_type : string;
  col_x : string;
  col_y : string;
  col_name : string;
  mapped_columns : list string;
  batch : nat;
}.

(** How the body of the [try] can end other than by falling through:
    a [continue], or an exception with its [str(e)]. *)
Inductive signal :=
  | Continue
  | Exception (msg : string).

Definition M (A : Type) : Type := LoopState -> LoopState * (signal + A).

Definition ret {A} (a : A) : M A := fun st => (st, inr a).

Definition bind {A B} (m : M A) (k : A -> M B) : M B :=
  fun st =>
    match m st with
    | (st', inr a) => k a st'
    | (st', inl sg) => (st', inl sg)
    end.

Notation "x <- m ;; k" := (bind m (fun x => k))
  (at level 100, m at next level, right associativity).
Notation "m ;; k" := (bind m (fun _ => k))
  (at level 100, right associativity).

Definition continue {A} : M A := fun st => (st, inl Continue).
Definition raise {A} (msg : string) : M A := fun st => (st, inl (Exception msg)).

Definition get_state : M LoopState := fun st => (st, inr st).
Definition put_db (db : Database) : M unit :=
  fun st => ({| st_db := db; st_cache := st_cache st;
                st_results := st_results st |}, inr tt).
Definition put_cache (c : gmap string AssetType) : M unit :=
  fun st => ({| st_db := st_db st; st_cache := c;
                st_results := st_results st |}, inr tt).
Definition put_results (r : Results) : M unit :=
  fun st => ({| st_db := st_db st; st_cache := st_cache st;
                st_results := r |}, inr tt).

Definition add_error (msg : string) (r : Results) : Results :=
  {| created := created r; updated := updated r;
     errors := (errors r ++ [msg])%list; r_assets := r_assets r |}.

Definition add_asset (e : AssetEntry) (r : Results) : Results :=
  {| created := if e_created e then S (created r) else created r;
     updated := if e_created e then updated r else S (updated r);
     errors := errors r; r_assets := (r_assets r ++ [e])%list |}.

(** [results['errors'].append(msg)] *)
Definition errors_append (msg : string) : M unit :=
  st <- get_state ;; put_results (add_error msg (st_results st)).

(** [str(e)] of the [AttributeError] that [None.strip()] raises. *)
Definition attribute_error : string :=
  "'NoneType' object has no attribute 'strip'".

(** [v.strip()]; [None] has no such method. *)
Definition method_strip (v : pyval) : M string :=
  match v with
  | VStr s => ret (strip s)
  | VNone => raise attribute_error
  end.

(** [AssetType.objects.create(name=n)] *)
Definition AssetType_create (n : string) : M AssetType :=
  st <- get_state ;;
  let asset_type := {| at_name := n |} in
  put_db {| asset_types := (asset_types (st_db st) ++ [asset_type])%list;
            import_batches := import_batches (st_db st);
            assets := assets (st_db st) |} ;;
  ret asset_type.

(** The lookup in [asset_types_cache], creating the type on a miss. *)
Definition resolve_asset_type (asset_type_name : string) : M AssetType :=
  let asset_type_key := lower asset_type_name in
  st <- get_state ;;
  match st_cache st !! asset_type_key with
  | None =>
      asset_type <- AssetType_create asset_type_name ;;
      st' <- get_state ;;
      put_cache (<[asset_type_key := asset_type]> (st_cache st')) ;;
      ret asset_type
  | Some asset_type => ret asset_type
  end.

(** The columns that no role is mapped to, with a non-empty value. *)
Definition build_metadata (c : Context) (row : Row) : Metadata :=
  {| md_columns :=
       omap (fun v : option string =>
               match v with
               | Some s => if falsy s then None else Some s
               | None => None
               end)
            (filter (fun kv : string * option string =>
                       kv.1 ∉ mapped_columns c) (cells row));
     md_rest :=
       match rest row with
       | Some ((_ :: _) as l) => Some l
       | _ => None
       end |}.

Definition Asset_update_or_create (c : Context) (asset_id : string)
    (d : Defaults) : M bool :=
  st <- get_state ;;
  match update_or_create (project c) asset_id d (assets (st_db st)) with
  | inl msg => raise msg
  | inr (table, was_created) =>
      put_db {| asset_types := asset_types (st_db st);
                import_batches := import_batches (st_db st);
                assets := table |} ;;
      ret was_created
  end.

Definition row_prefix (row_num : nat) : string :=
  "Row " ++ pretty row_num ++ ": ".

(** The body of the [try] for one row. *)
Definition row_body (c : Context) (row_num : nat) (row : Row) : M unit :=
  asset_id <- method_strip (row_get row (col_id c)) ;;
  asset_type_name <- method_strip (row_get row (col_type c)) ;;
  x_str <- method_strip (row_get row (col_x c)) ;;
  y_str <- method_strip (row_get row (col_y c)) ;;
  if falsy asset_id then
    errors_append (row_prefix row_num ++ "Missing asset_id (column '"
                   ++ col_id c ++ "')") ;;
    continue
  else if falsy asset_type_name then
    errors_append (row_prefix row_num ++ "Missing asset_type (column '"
                   ++ col_type c ++ "')") ;;
    continue
  else
    match float x_str, float y_str with
    | Some x, Some y =>
        asset_type <- resolve_asset_type asset_type_name ;;
        let metadata := build_metadata c row in
        name <- (if falsy (col_name c) then ret ""
                 else method_strip (row_get row (col_name c))) ;;
        was_created <- Asset_update_or_create c asset_id
          {| d_asset_type := asset_type; d_name := name;
             d_original_x := x; d_original_y := y;
             d_metadata := metadata; d_import_batch := batch c |} ;;
        st <- get_state ;;
        put_results (add_asset {| e_asset_id := asset_id;
                                  e_created := was_created;
                                  e_x := x; e_y := y |} (st_results st))
    | _, _ =>
        errors_append (row_prefix row_num ++ "Invalid coordinates ("
                       ++ col_x c ++ "=" ++ x_str ++ ", "
                       ++ col_y c ++ "=" ++ y_str ++ ")") ;;
        continue
    end.

(** One iteration: the [try] with its [except Exception as e]. *)
Definition process_row (c : Context) (row_num : nat) (row : Row)
    (st : LoopState) : LoopState :=
  match row_body c row_num row st with
  | (st', inr tt) => st'
  | (st', inl Continue) => st'
  | (st', inl (Exception msg)) =>
      {| st_db := st_db st'; st_cache := st_cache st';
         st_results := add_error (row_prefix row_num ++ msg) (st_results st') |}
  end.

(** [for row_num, row in enumerate(reader, start=..)] *)
Fixpoint process_rows (c : Context) (row_num : nat) (rows : list Row)
    (st : LoopState) : LoopState :=
  match rows with
  | [] => st
  | row :: rows' => process_rows c (S row_num) rows' (process_row c row_num row st)
  end.

(** *** [import_assets_from_csv] *)

Inductive outcome :=
  | Returns (results : Results) (db : Database)
  | Propagates (e : exception) (db : Database).

(** [{at.name.lower(): at for at in AssetType.objects.all()}] *)
Definition build_cache (l : list AssetType) : gmap string AssetType :=
  foldl (fun cache at' => <[lower (at_name at') := at']> cache) ∅ l.

(** [filename or getattr(csv_file, 'name', 'unknown.csv')] *)
Definition batch_filename (filename : option string) (f : CsvFile) : string :=
  match filename with
  | Some s => if falsy s then default "unknown.csv" (file_name f) else s
  | None => default "unknown.csv" (file_name f)
  end.

(** [ImportBatch.objects.create(project=.., filename=.., asset_count=0)] *)
Definition ImportBatch_create (project : Z) (filename : string) (db : Database)
    : Database * nat :=
  ({| asset_types := asset_types db;
      import_batches :=
        (import_batches db ++
           [{| ib_project := project; ib_filename := filename;
               ib_asset_count := 0 |}])%list;
      assets := assets db |},
   length (import_batches db)).

(** [batch.asset_count = n; batch.save(update_fields=['asset_count'])] *)
Definition ImportBatch_save_count (pk n : nat) (db : Database) : Database :=
  {| asset_types := asset_types db;
     import_batches :=
       alter (fun b => {| ib_project := ib_project b;
                          ib_filename := ib_filename b;
                          ib_asset_count := n |}) pk (import_batches db);
     assets := assets db |}.

Definition make_context (project : Z) (mapping : gmap string string)
    (batch : nat) : Context :=
  {| project := project;
     col_id := mapping_get mapping "asset_id";
     col_type := mapping_get mapping "asset_type";
     col_x := mapping_get mapping "x";
     col_y := mapping_get mapping "y";
     col_name := mapping_get mapping "name";
     mapped_columns := (map_to_list mapping).*2;
     batch := batch |}.

Definition empty_results : Results :=
  {| created := 0; updated := 0; errors := []; r_assets := [] |}.

(** The function.  The header check raises before the transaction is
    opened; inside [transaction.atomic()] nothing propagates, every
    exception of a row being caught in the loop, so the block commits. *)
Definition import_assets_from_csv (db : Database) (project : Z)
    (csv_file : CsvFile) (column_mapping : option (gmap string string))
    (filename : option string) : outcome :=
  let mapping := merge_mapping column_mapping in
  match find_missing (fieldnames csv_file) mapping required_roles with
  | inl e => Propagates e db
  | inr ((_ :: _) as missing) =>
      Propagates (ValueError ("Missing columns in CSV: " ++ join_comma missing)) db
  | inr [] =>
      let asset_types_cache := build_cache (asset_types db) in
      let '(db1, pk) :=
        ImportBatch_create project (batch_filename filename csv_file) db in
      let st :=
        process_rows (make_context project mapping pk) 2
          (DictReader_rows csv_file)
          {| st_db := db1; st_cache := asset_types_cache;
             st_results := empty_results |} in
      let results := st_results st in
      Returns results
        (ImportBatch_save_count pk (created results + updated results)
           (st_db st))
  end.

(** *** Notions the properties are stated with *)

(** The stripped text a row holds under a column, when the cell is a
    string. *)
Definition row_text (row : Row) (col : string) : option string :=
  match row_get row col with
  | VStr s => Some (strip s)
  | VNone => None
  end.

(** The optional name of a row: empty when no name column is mapped. *)
Definition row_name (mapping : gmap string string) (row : Row) : option string :=
  if falsy (mapping_get mapping "name") then Some ""
  else row_text row (mapping_get mapping "name").

Record RowFields := {
  f_asset_id : string;
  f_type_name : string;
  f_x : pyfloat;
  f_y : pyfloat;
  f_name : string;
}.

(** A valid data row: the four required cells are strings, the asset id
    and the type name are not empty, both coordinates are accepted by
    [float], and the name cell, if the column exists, is a string. *)
Definition valid_row (mapping : gmap string string) (row : Row)
    : option RowFields :=
  aid ← row_text row (mapping_get mapping "asset_id");
  tn ← row_text row (mapping_get mapping "asset_type");
  xs ← row_text row (mapping_get mapping "x");
  ys ← row_text row (mapping_get mapping "y");
  if falsy aid || falsy tn then None
  else
    x ← float xs;
    y ← float ys;
    nm ← row_name mapping row;
    Some {| f_asset_id := aid; f_type_name := tn;
            f_x := x; f_y := y; f_name := nm |}.

(** A row that fails the validation at the head of the loop body. *)
Definition fails_validation (mapping : gmap string string) (row : Row) : bool :=
  match row_text row (mapping_get mapping "asset_id"),
        row_text row (mapping_get mapping "asset_type"),
        row_text row (mapping_get mapping "x"),
        row_text row (mapping_get mapping "y") with
  | Some aid, Some tn, Some xs, Some ys =>
      falsy aid || falsy tn
      || negb (bool_decide (is_Some (float xs) ∧ is_Some (float ys)))
  | _, _, _, _ => true
  end.

(** The asset id a row carries, if any. *)
Definition row_asset_id (mapping : gmap string string) (row : Row)
    : option string :=
  row_text row (mapping_get mapping "asset_id").

(** [Asset.objects.filter(project=.., asset_id=..)] *)
Definition assets_with_key (k : Z * string) (table : list Asset) : list Asset :=
  filter (fun a => asset_key a = k) table.

(** [Asset.objects.filter(project=..).count()] *)
Definition project_asset_count (p : Z) (db : Database) : nat :=
  length (filter (fun a => a_project a = p) (assets db)).

(** The uniqueness of [(project, asset_id)] in the asset table. *)
Definition unique_keys (db : Database) : Prop :=
  NoDup (asset_key <$> assets db).

(** The cache maps a lower-cased name to a type of that name. *)
Definition cache_ok (cache : gmap string AssetType) : Prop :=
  forall k t, cache !! k = Some t -> lower (at_name t) = k.

(** What a list of per-row outcomes, a message or an entry each, leaves
    in [results]: the errors carry the number of their row. *)
Fixpoint recorded_errors (row_num : nat) (outs : list (string + AssetEntry))
    : list string :=
  match outs with
  | [] => []
  | inl msg :: outs' =>
      (row_prefix row_num ++ msg) :: recorded_errors (S row_num) outs'
  | inr _ :: outs' => recorded_errors (S row_num) outs'
  end.

Fixpoint recorded_entries (outs : list (string + AssetEntry)) : list AssetEntry :=
  match outs with
  | [] => []
  | inl _ :: outs' => recorded_entries outs'
  | inr e :: outs' => e :: recorded_entries outs'
  end.

(** The parameters of the function, for a call by keyword. *)
Definition parameters : list string :=
  ["project"; "csv_file"; "column_mapping"; "filename"].

Definition accepts_keyword (kw : string) : bool :=
  bool_decide (kw ∈ parameters).

(** A loop state with one more error and nothing else changed. *)
Definition with_error (msg : string) (st : LoopState) : LoopState :=
  {| st_db := st_db st; st_cache := st_cache st;
     st_results := add_error msg (st_results st) |}.

(** The [defaults] the body builds for a row. *)
Definition row_defaults (p : Z) (m : gmap string string) (pk : nat) (row : Row)
    (t : AssetType) (nm : string) (x y : pyfloat) : Defaults :=
  {| d_asset_type := t; d_name := nm; d_original_x := x; d_original_y := y;
     d_metadata := build_metadata (make_context p m pk) row;
     d_import_batch := pk |}.

Definition defaults_of (p : Z) (m : gmap string string) (pk : nat) (row : Row)
    (t : AssetType) (flds : RowFields) : Defaults :=
  row_defaults p m pk row t (f_name flds) (f_x flds) (f_y flds).

(** The entry of [results['assets']] for a valid row. *)
Definition entry_of (flds : RowFields) (cr : bool) : AssetEntry :=
  {| e_asset_id := f_asset_id flds; e_created := cr;
     e_x := f_x flds; e_y := f_y flds |}.

Definition count_created (l : list AssetEntry) : nat :=
  length (filter (fun e => e_created e = true) l).

Definition count_updated (l : list AssetEntry) : nat :=
  length (filter (fun e => e_created e = false) l).

(** The three ways [update_or_create] can end, by the number of assets
    that have the key. *)
Inductive upsert_spec (p : Z) (aid : string) (d : Defaults) (table : list Asset)
    : string + list Asset * bool -> Prop :=
  | upsert_created :
      assets_with_key (p, aid) table = [] ->
      upsert_spec p aid d table
        (inr ((table ++ [new_asset p aid d])%list, true))
  | upsert_updated a :
      assets_with_key (p, aid) table = [a] ->
      upsert_spec p aid d table
        (inr ((fun a => if decide (asset_key a = (p, aid))
                        then apply_defaults d a else a) <$> table, false))
  | upsert_multiple msg :
      2 <= length (assets_with_key (p, aid) table) ->
      upsert_spec p aid d table (inl msg).

(** The context and the state the loop of a call starts with, and the
    state it ends with. *)
Definition loop_context (db : Database) (p : Z)
    (cm : option (gmap string string)) : Context :=
  make_context p (merge_mapping cm) (length (import_batches db)).

Definition loop_start (db : Database) (p : Z) (f : CsvFile)
    (fn : option string) : LoopState :=
  {| st_db := (ImportBatch_create p (batch_filename fn f) db).1;
     st_cache := build_cache (asset_types db);
     st_results := empty_results |}.

Definition loop_end (db : Database) (p : Z) (f : CsvFile)
    (cm : option (gmap string string)) (fn : option string) : LoopState :=
  process_rows (loop_context db p cm) 2 (DictReader_rows f) (loop_start db p f fn).

(** The header has a column for every required role. *)
Definition header_ok (f : CsvFile) (cm : option (gmap string string)) : Prop :=
  find_missing (fieldnames f) (merge_mapping cm) required_roles = inr [].

Definition st_keys (st : LoopState) : list (Z * string) :=
  asset_key <$> assets (st_db st).

Definition returned_results (o : outcome) : option Results :=
  match o with
  | Returns r _ => Some r
  | Propagates _ _ => None
  end.

Definition final_db (o : outcome) : Database :=
  match o with
  | Returns _ db => db
  | Propagates _ db => db
  end.

End CsvImporter.

(** ** The call from the upload on *)

Module CsvUpload.

Import Py CsvImporter.

(** How the [csv.reader] under the [DictReader] stops: at the end of the
    content, or with [csv.Error] on a record it cannot tokenize (a field
    over the size limit, a line break inside an unquoted field). *)
Inductive reader_stop :=
  | StopIteration
  | ReaderRaises (msg : string).

(** The upload as the function receives it.  [decodes] tells whether
    [content.decode('utf-8-sig')] succeeds; it is [true] as well when
    [read()] gives a [str], which is not decoded.  [yielded] holds the
    records the reader yields before it stops, with the name of the
    file, and [stops] how it stops after them. *)
Record Upload := {
  decodes : bool;
  yielded : CsvFile;
  stops : reader_stop;
}.

(** An upload that decodes and that the reader reads to its end. *)
Definition complete (f : CsvFile) : Upload :=
  {| decodes := true; yielded := f; stops := StopIteration |}.

(** What a call can raise: the decoding error, the reader's error, or
    the exception of the header check. *)
Inductive raised :=
  | UnicodeDecodeError
  | CsvError (msg : string)
  | HeaderCheck (e : exception).

Inductive call_outcome :=
  | CallReturns (results : Results) (db : Database)
  | CallRaises (e : raised) (db : Database).

(** [import_assets_from_csv] on an upload.  The content is decoded
    first.  [reader.fieldnames] reads the first record, so a reader that
    fails on it raises there.  The [for] statement that advances the
    reader stands inside [transaction.atomic()] and outside the [try] of
    the loop body: when the reader raises after the records it yielded,
    the exception leaves the block, and the database is rolled back to
    what it was before the call. *)
Definition import_upload (db : Database) (project : Z) (u : Upload)
    (column_mapping : option (gmap string string)) (filename : option string)
    : call_outcome :=
  if decodes u then
    match records (yielded u), stops u with
    | [], ReaderRaises msg => CallRaises (CsvError msg) db
    | _, stop =>
        match import_assets_from_csv db project (yielded u) column_mapping
                filename with
        | Propagates e db' => CallRaises (HeaderCheck e) db'
        | Returns results db' =>
            match stop with
            | StopIteration => CallReturns results db'
            | ReaderRaises msg => CallRaises (CsvError msg) db
            end
        end
    end
  else CallRaises UnicodeDecodeError db.

End CsvUpload.

(** ** The file helpers of [drawings/tests.py] *)

Module TestHelpers.

Import Validators.

(** [SimpleUploadedFile(name, content)]: the size of the upload is the
    length of its content. *)
Definition SimpleUploadedFile (file_name : string) (data : list byte)
    : UploadedFile :=
  {| name := file_name; size := Z.of_nat (length data); content := data |}.

(** [if size and size > len(content): content += b'\x00' * (size - len(content))] *)
Definition pad_content (requested : option Z) (data : list byte) : list byte :=
  match requested with
  | Some n =>
      if negb (n =? 0)%Z && (Z.of_nat (length data) <? n)%Z
      then (data ++ replicate (Z.to_nat (n - Z.of_nat (length data))) x00)%list
      else data
  | None => data
  end.

Definition pdf_content : list byte :=
  list_byte_of_string "%PDF-1.4 minimal test content".

Definition png_content : list byte :=
  ([x89; x50; x4e; x47; x0d; x0a; x1a; x0a] ++ replicate 50 x00)%list.

(** [make_pdf_file(name, size)] *)
Definition make_pdf_file (file_name : string) (requested : option Z)
    : UploadedFile :=
  SimpleUploadedFile file_name (pad_content requested pdf_content).

(** [make_png_file(name, size)] *)
Definition make_png_file (file_name : string) (requested : option Z)
    : UploadedFile :=
  SimpleUploadedFile file_name (pad_content requested png_content).

(** The length the helpers give a file: the requested size when it
    exceeds the length of the base content, that length otherwise. *)
Definition helper_size (base : Z) (requested : option Z) : Z :=
  match requested with
  | Some n => Z.max n base
  | None => base
  end.

End TestHelpers.

(** ** [drawings/permissions.py] *)

Module Permissions.

Record User := { is_authenticated : bool }.

(** [request.user]: a user object, anonymous or not, or [None]. *)
Record Request := { user : option User }.

(** What [has_permission] returns; the caller tests it for truth. *)
Inductive pyvalue :=
  | PyTrue
  | PyFalse
  | PyNone.

Definition truthy (v : pyvalue) : bool :=
  match v with PyTrue => true | _ => false end.

(** [IsAuthenticatedOrDebug.has_permission], with [settings.DEBUG] as a
    parameter.  [a and b] is [a] when [a] is falsy, [b] otherwise; a user
    object is truthy. *)
Definition has_permission (DEBUG : bool) (request : Request) : pyvalue :=
  if DEBUG then PyTrue
  else
    match user request with
    | None => PyNone
    | Some u => if is_authenticated u then PyTrue else PyFalse
    end.

End Permissions.

(** ** [drawings/migrations/0011_seed_default_asset_types.py] *)

Module SeedMigration.

(** Modelled from the spec: the [AssetType] model of [drawings/models.py]
    with the display attributes the migration sets.  Only the table of
    asset types is modelled; what deleting a type does to the assets
    that refer to it is decided by the model's foreign key. *)
Record AssetType := {
  name : string;
  icon_shape : string;
  color : string;
  size : Z;
}.

Definition defaults : list (string * string * string * Z) :=
  [("TN Intersection", "circle", "#FF0000", 20%Z);
   ("VSL", "square", "#0066FF", 20%Z);
   ("CCTV", "triangle", "#00AA00", 20%Z)].

Inductive exception :=
  | MultipleObjectsReturned.

(** The row [AssetType(name=.., **defaults)] of an entry. *)
Definition row_of (d : string * string * string * Z) : AssetType :=
  let '(n, shape, col, sz) := d in
  {| name := n; icon_shape := shape; color := col; size := sz |}.

(** [AssetType.objects.get_or_create(name=.., defaults={..})] *)
Definition get_or_create (d : string * string * string * Z)
    (table : list AssetType) : exception + list AssetType :=
  match filter (fun t => name t = name (row_of d)) table with
  | [] => inr (table ++ [row_of d])%list
  | [_] => inr table
  | _ => inl MultipleObjectsReturned
  end.

(** The [for] loop of [seed_asset_types]. *)
Fixpoint seed_loop (ds : list (string * string * string * Z))
    (table : list AssetType) : exception + list AssetType :=
  match ds with
  | [] => inr table
  | d :: ds' =>
      match get_or_create d table with
      | inl e => inl e
      | inr table' => seed_loop ds' table'
      end
  end.

Definition seed_asset_types (table : list AssetType)
    : exception + list AssetType :=
  seed_loop defaults table.

(** [AssetType.objects.filter(name__in=[..]).delete()] *)
Definition remove_asset_types (table : list AssetType) : list AssetType :=
  filter (fun t => name t ∉ ["TN Intersection"; "VSL"; "CCTV"]) table.

(** The rows the migration creates when nothing is there. *)
Definition default_rows : list AssetType := row_of <$> defaults.

End SeedMigration.

(** ** Further notions for the properties *)

Module Notions.

Import Py Validators CsvImporter.

(** python-magic is there, answers, and its answer is an allowed image
    type. *)
Definition magic_accepts_image (magic : magic_lib) (h : list byte) : bool :=
  match magic with
  | Some from_buffer =>
      match from_buffer h with
      | Some mime_type => bool_decide (mime_type ∈ image_allowed_mime_types)
      | None => false
      end
  | None => false
  end.

Definition has_image_signature (h : list byte) : bool :=
  is_png h || is_jpeg h || is_gif h.

(** A required role whose column is missing: mapped to the empty name,
    or to a name the header does not have. *)
Definition missing_role (mapping : gmap string string) (fns : list string)
    (role : string) : Prop :=
  mapping_get mapping role = "" \/ mapping_get mapping role ∉ fns.

#[global] Instance missing_role_dec mapping fns role :
  Decision (missing_role mapping fns role).
Proof. unfold missing_role. apply _. Defined.

Definition missing_entry (mapping : gmap string string) (role : string)
    : string :=
  describe_missing role (mapping_get mapping role).

(** The names of the asset types, lower-cased as the cache keys are. *)
Definition lower_names (l : list CsvImporter.AssetType) : list string :=
  (fun t => lower (at_name t)) <$> l.

(** The key of an asset with its adjusted position. *)
Definition key_adjusted (a : Asset) : Z * string * option (pyfloat * pyfloat) :=
  (asset_key a, a_adjusted a).

(** The keys of the entries marked as created, each with no adjusted
    position. *)
Definition created_keys (p : Z) (l : list AssetEntry)
    : list (Z * string * option (pyfloat * pyfloat)) :=
  (fun e => ((p, e_asset_id e), None))
  <$> filter (fun e => e_created e = true) l.

(** A string of white space only. *)
Fixpoint all_space (s : string) : bool :=
  match s with
  | String c s' => isspace c && all_space s'
  | EmptyString => true
  end.

(** The file without its blank records. *)
Definition without_blank_records (f : CsvFile) : CsvFile :=
  {| records :=
       match records f with
       | [] => []
       | fns :: data => fns :: filter (fun r => r <> []) data
       end;
     file_name := file_name f |}.

(** [str.isascii()] *)
Fixpoint isascii (s : string) : bool :=
  match s with
  | String c s' => (N_of_ascii c <? 128)%N && isascii s'
  | EmptyString => true
  end.

(** The cell of a row under a column is ASCII text, or no text at all. *)
Definition ascii_cell (row : Row) (col : string) : bool :=
  match row_get row col with
  | VStr s => isascii s
  | VNone => true
  end.

(** The cells that the loop body strips, parses and lower-cases are
    ASCII.  On such text [Py.strip], [Py.float] and [Py.lower] are
    [str.strip], [float] and [str.lower]; beyond it Python also strips
    the white space of Unicode, reads its decimal digits and folds its
    letters. *)
Definition ascii_row (mapping : gmap string string) (row : Row) : bool :=
  ascii_cell row (mapping_get mapping "asset_id")
  && ascii_cell row (mapping_get mapping "asset_type")
  && ascii_cell row (mapping_get mapping "x")
  && ascii_cell row (mapping_get mapping "y")
  && ascii_cell row (mapping_get mapping "name").

Definition ascii_rows (mapping : gmap string string) (rows : list Row) : bool :=
  forallb (ascii_row mapping) rows.

(** The names of the asset types of the database are ASCII. *)
Definition ascii_types (db : Database) : bool :=
  forallb (fun t => isascii (at_name t)) (asset_types db).

(** The message of the check that a row fails at the head of the loop
    body, in the order of the body: a required cell that is [None], an
    empty asset id, an empty type name, a coordinate that [float]
    rejects.  [None] for a row that passes them all. *)
Definition check_message (mapping : gmap string string) (row : Row)
    : option string :=
  match row_text row (mapping_get mapping "asset_id"),
        row_text row (mapping_get mapping "asset_type"),
        row_text row (mapping_get mapping "x"),
        row_text row (mapping_get mapping "y") with
  | Some aid, Some tn, Some xs, Some ys =>
      if falsy aid then
        Some ("Missing asset_id (column '"
              ++ mapping_get mapping "asset_id" ++ "')")
      else if falsy tn then
        Some ("Missing asset_type (column '"
              ++ mapping_get mapping "asset_type" ++ "')")
      else
        match float xs, float ys with
        | Some _, Some _ => None
        | _, _ =>
            Some ("Invalid coordinates ("
                  ++ mapping_get mapping "x" ++ "=" ++ xs ++ ", "
                  ++ mapping_get mapping "y" ++ "=" ++ ys ++ ")")
        end
  | _, _, _, _ => Some attribute_error
  end.


End Notions.

(** ** Sample uploads, files and databases *)

Module Samples.

Import Py Validators CsvImporter.

Definition oversized_upload : UploadedFile :=
  {| name := "plan.pdf"; size := 50 * MB + 1; content := pdf_magic |}.

Definition upload_at_image_ceiling : UploadedFile :=
  {| name := "logo.png"; size := 5 * MB; content := png_magic |}.

(** A well-formed WEBP header: [RIFF], four bytes of length, [WEBP]. *)
Definition webp_upload : UploadedFile :=
  {| name := "photo.webp"; size := 12;
     content := [x52; x49; x46; x46; x04; x00; x00; x00; x57; x45; x42; x50] |}.

(** A PNG image stored under a [.webp] name. *)
Definition png_named_webp : UploadedFile :=
  {| name := "img.webp"; size := 8;
     content := [x89; x50; x4e; x47; x0d; x0a; x1a; x0a] |}.

Definition empty_db : Database :=
  {| asset_types := []; import_batches := []; assets := [] |}.

Definition header : list string := ["asset_id"; "asset_type"; "x"; "y"; "name"].

Definition csv (data : list (list string)) : CsvFile :=
  {| records := header :: data; file_name := Some "test.csv" |}.

(** [test_basic_import] *)
Definition basic_file : CsvFile :=
  csv [["A1"; "Valve"; "100.5"; "200.3"; "First"];
       ["A2"; "Valve"; "101.0"; "201.0"; "Second"]].

(** [test_missing_columns_raises] *)
Definition only_col_file : CsvFile :=
  {| records := [["only_col"]; ["val"]]; file_name := Some "test.csv" |}.

(** [test_invalid_coords_logged_as_error] *)
Definition ok_record : list string := ["OK"; "T"; "10"; "20"; ""].
Definition bad_record : list string := ["BAD"; "T"; "abc"; "def"; ""].
Definition coords_file : CsvFile := csv [ok_record; bad_record].

(** A record with fewer cells than the header, then a good one. *)
Definition short_record : list string := ["S1"; "T"; "1"].
Definition short_row_file : CsvFile := csv [short_record; ok_record].

(** A record without asset id whose x is not a number. *)
Definition no_id_bad_x_file : CsvFile := csv [[""; "T"; "abc"; "1"; ""]].

(** Coordinates that [float] reads as infinity and NaN. *)
Definition non_finite_file : CsvFile := csv [["I1"; "T"; "inf"; "nan"; ""]].

(** Two valid records with the same asset id. *)
Definition first_record : list string := ["A"; "Gate"; "1"; "2"; "v1"].
Definition second_record : list string := ["A"; "Valve"; "10"; "20"; "v2"].
Definition duplicate_file : CsvFile := csv [first_record; second_record].

(** A project that already has the asset [A]. *)
Definition db_with_A : Database :=
  {| asset_types := [{| at_name := "Gate" |}];
     import_batches := [];
     assets :=
       [{| a_project := 1; a_asset_id := "A";
           a_asset_type := {| at_name := "Gate" |}; a_name := "old";
           a_original_x := FDec false 0 0; a_original_y := FDec false 0 0;
           a_adjusted := None;
           a_metadata := {| md_columns := ∅; md_rest := None |};
           a_import_batch := None |}] |}.

(** Three records that fail the validation, each in its own way. *)
Definition failing_file : CsvFile :=
  csv [[""; "T"; "1"; "2"; ""]; ["B"; " "; "1"; "2"; ""];
       ["C"; "T"; "abc"; "2"; ""]].

(** [test_fixed_asset_type_skips_column_validation] without the keyword
    the function does not have. *)
Definition fixed_type_file : CsvFile :=
  {| records := [["asset_id"; "x"; "y"]; ["F3"; "5"; "6"]];
     file_name := Some "test.csv" |}.

Definition fixed_type_mapping : gmap string string :=
  <["asset_id" := "asset_id"]> (<["x" := "x"]> (<["y" := "y"]> ∅)).

(** Two uploads whose names differ in case only. *)
Definition upper_named_pdf : UploadedFile :=
  {| name := "PLAN.PDF"; size := 5; content := pdf_magic |}.
Definition lower_named_pdf : UploadedFile :=
  {| name := "plan.pdf"; size := 5; content := pdf_magic |}.

(** The first entry and the first asset of importing [basic_file] into
    the empty database. *)
Definition first_entry : AssetEntry :=
  {| e_asset_id := "A1"; e_created := true;
     e_x := FDec false 1005 (-1); e_y := FDec false 2003 (-1) |}.

Definition first_asset : Asset :=
  {| a_project := 1; a_asset_id := "A1";
     a_asset_type := {| at_name := "Valve" |}; a_name := "First";
     a_original_x := FDec false 1005 (-1); a_original_y := FDec false 2003 (-1);
     a_adjusted := None;
     a_metadata := {| md_columns := ∅; md_rest := None |};
     a_import_batch := Some 0 |}.

(** An asset-type table that has one of the default names already, with
    attributes of its own. *)
Definition custom_types : list SeedMigration.AssetType :=
  [{| SeedMigration.name := "VSL"; SeedMigration.icon_shape := "star";
      SeedMigration.color := "#123456"; SeedMigration.size := 12 |};
   {| SeedMigration.name := "Hydrant"; SeedMigration.icon_shape := "circle";
      SeedMigration.color := "#00FF00"; SeedMigration.size := 10 |}].


End Samples.

(** * Properties of the validators *)

Section ValidatorFacts.

Import Validators Samples.

Lemma pdf_size_check (v : PDFFileValidator) (magic : magic_lib) (f : UploadedFile) :
  (pdf_max_size v < size f)%Z ->
  PDFFileValidator_call v magic f = Raises (FileSizeExceeds (size f) (pdf_max_size v)).
Proof.
  intros H. unfold PDFFileValidator_call.
  apply Z.ltb_lt in H. rewrite H. reflexivity.
Qed.

Lemma image_size_check (v : ImageFileValidator) (magic : magic_lib) (f : UploadedFile) :
  (image_max_size v < size f)%Z ->
  ImageFileValidator_call v magic f = Raises (FileSizeExceeds (size f) (image_max_size v)).
Proof.
  intros H. unfold ImageFileValidator_call.
  apply Z.ltb_lt in H. rewrite H. reflexivity.
Qed.

Lemma pdf_size_passes (v : PDFFileValidator) (magic : magic_lib) (f : UploadedFile) :
  (size f <= pdf_max_size v)%Z ->
  is_size_error (PDFFileValidator_call v magic f) = false.
Proof.
  intros H. unfold PDFFileValidator_call.
  destruct (Z.ltb_spec (pdf_max_size v) (size f)) as [Hlt|_]; [lia|].
  repeat case_match; reflexivity.
Qed.

Lemma basic_header_checks_no_size_error (h : list byte) :
  is_size_error (basic_header_checks h) = false.
Proof. unfold basic_header_checks. case_match; reflexivity. Qed.

Lemma image_size_passes (v : ImageFileValidator) (magic : magic_lib) (f : UploadedFile) :
  (size f <= image_max_size v)%Z ->
  is_size_error (ImageFileValidator_call v magic f) = false.
Proof.
  intros H. unfold ImageFileValidator_call.
  destruct (Z.ltb_spec (image_max_size v) (size f)) as [Hlt|_]; [lia|].
  repeat case_match; auto using basic_header_checks_no_size_error.
Qed.

(** C7. The default PDF validator raises the size error for every file
    above 50 MB and the default image validator for every file above
    5 MB, whatever the rest of the file; at or below the ceiling neither
    of them raises the size error. *)
Theorem size_ceiling_enforced (magic : magic_lib) (f : UploadedFile) :
  ((50 * MB < size f)%Z ->
     PDFFileValidator_call validate_pdf magic f
     = Raises (FileSizeExceeds (size f) (50 * MB)))
  /\ ((5 * MB < size f)%Z ->
     ImageFileValidator_call validate_image magic f
     = Raises (FileSizeExceeds (size f) (5 * MB)))
  /\ ((size f <= 50 * MB)%Z ->
     is_size_error (PDFFileValidator_call validate_pdf magic f) = false)
  /\ ((size f <= 5 * MB)%Z ->
     is_size_error (ImageFileValidator_call validate_image magic f) = false).
Proof.
  repeat split; intros H.
  - apply (pdf_size_check validate_pdf); exact H.
  - apply (image_size_check validate_image); exact H.
  - apply pdf_size_passes; exact H.
  - apply image_size_passes; exact H.
Qed.

Lemma size_ceiling_enforced_witness :
  PDFFileValidator_call validate_pdf None oversized_upload
  = Raises (FileSizeExceeds (50 * MB + 1) (50 * MB))
  /\ ImageFileValidator_call validate_image None oversized_upload
     = Raises (FileSizeExceeds (50 * MB + 1) (5 * MB))
  /\ is_size_error (PDFFileValidator_call validate_pdf None upload_at_image_ceiling)
     = false
  /\ is_size_error (ImageFileValidator_call validate_image None upload_at_image_ceiling)
     = false.
Proof.
  destruct (size_ceiling_enforced None oversized_upload) as (H1 & H2 & _ & _).
  destruct (size_ceiling_enforced None upload_at_image_ceiling) as (_ & _ & H3 & H4).
  split; [|split; [|split]].
  - apply H1. vm_compute. reflexivity.
  - apply H2. vm_compute. reflexivity.
  - apply H3. vm_compute. discriminate.
  - apply H4. vm_compute. discriminate.
Defined.

(** A file exactly at the ceiling goes through the whole validator. *)
Example image_at_ceiling_passes :
  ImageFileValidator_call validate_image None upload_at_image_ceiling = Passes.
Proof. reflexivity. Qed.

Lemma startswith_cons (b : list byte) (p : byte) (pre : list byte) :
  Py.startswith b (p :: pre) = true ->
  exists b', b = p :: b' /\ Py.startswith b' pre = true.
Proof.
  destruct b as [|x b']; simpl; [discriminate|].
  intros H. apply andb_prop in H as [Hx Hr].
  apply Byte.byte_dec_bl in Hx. subst. eauto.
Qed.

Lemma riff_header_no_signature (f : UploadedFile) :
  Py.startswith (content f) riff_magic = true ->
  is_png (read_header f) || is_jpeg (read_header f) || is_gif (read_header f)
  = false.
Proof.
  intros H. apply startswith_cons in H as (b' & Hb & _).
  unfold read_header. rewrite Hb. reflexivity.
Qed.

Lemma image_fallback_rejects (v : ImageFileValidator) (f : UploadedFile) :
  is_png (read_header f) || is_jpeg (read_header f) || is_gif (read_header f)
  = false ->
  exists e, ImageFileValidator_call v None f = Raises e.
Proof.
  intros H. unfold ImageFileValidator_call, basic_header_checks.
  rewrite H. simpl. repeat case_match; eauto.
Qed.

(** C10, as amended.  Without python-magic the image validator rejects
    every file, [.webp] or not, whose header does not begin with a PNG,
    JPEG or GIF signature.  [.webp] is an allowed extension, yet a file
    that begins with the RIFF signature of WEBP is always rejected, and
    when its name ends in [.webp] and its size is within the limit the
    reason is the content check. *)
Theorem webp_rejected_without_magic (v : ImageFileValidator) (f : UploadedFile) :
  ".webp" ∈ allowed_extensions
  /\ (is_png (read_header f) || is_jpeg (read_header f) || is_gif (read_header f)
      = false ->
      exists e, ImageFileValidator_call v None f = Raises e)
  /\ (Py.startswith (content f) riff_magic = true ->
      (exists e, ImageFileValidator_call v None f = Raises e)
      /\ (file_ext (name f) = ".webp" -> (size f <= image_max_size v)%Z ->
          ImageFileValidator_call v None f = Raises InvalidImageContent)).
Proof.
  split; [|split].
  - unfold allowed_extensions. set_solver.
  - apply image_fallback_rejects.
  - intros H. pose proof (riff_header_no_signature f H) as Hsig. split.
    + apply image_fallback_rejects; exact Hsig.
    + intros Hext Hsize. unfold ImageFileValidator_call, basic_header_checks.
      destruct (Z.ltb_spec (image_max_size v) (size f)) as [Hlt|_]; [lia|].
      rewrite Hext, Hsig. reflexivity.
Qed.

Lemma webp_rejected_without_magic_witness :
  ImageFileValidator_call validate_image None webp_upload
  = Raises InvalidImageContent.
Proof.
  destruct (webp_rejected_without_magic validate_image webp_upload)
    as (_ & _ & H).
  destruct (H eq_refl) as [_ H'].
  apply H'.
  - reflexivity.
  - vm_compute. discriminate.
Defined.

(** C10, as stated, fails: without python-magic a [.webp] file is not
    rejected regardless of content, one that holds a PNG image passes. *)
Lemma webp_named_png_passes :
  file_ext (name png_named_webp) = ".webp"
  /\ ImageFileValidator_call validate_image None png_named_webp = Passes.
Proof. split; reflexivity. Qed.

End ValidatorFacts.

(** * Properties of the importer *)

Section ImporterFacts.

Import Py CsvImporter CsvUpload Notions Samples.
Local Open Scope list_scope.

Lemma method_strip_text (row : Row) (col : string) (st : LoopState) :
  method_strip (row_get row col) st
  = match row_text row col with
    | Some t => (st, inr t)
    | None => (st, inl (Exception attribute_error))
    end.
Proof. unfold row_text, method_strip. destruct (row_get row col); reflexivity. Qed.

Ltac step_strip :=
  unfold bind at 1; rewrite method_strip_text.

Lemma process_row_fails p m pk n row st :
  fails_validation m row = true ->
  exists msg,
    process_row (make_context p m pk) n row st
    = with_error (row_prefix n ++ msg)%string st.
Proof.
  unfold fails_validation, process_row, row_body, with_error. simpl.
  intros H.
  step_strip.
  destruct (row_text row (mapping_get m "asset_id")) as [aid|]; [|eauto].
  step_strip.
  destruct (row_text row (mapping_get m "asset_type")) as [tn|]; [|eauto].
  step_strip.
  destruct (row_text row (mapping_get m "x")) as [xs|]; [|eauto].
  step_strip.
  destruct (row_text row (mapping_get m "y")) as [ys|]; [|eauto].
  destruct (falsy aid); simpl in *.
  { destruct st; eauto. }
  destruct (falsy tn); simpl in *.
  { destruct st; eauto. }
  apply negb_true_iff, bool_decide_eq_false in H.
  destruct (float xs) as [x|] eqn:Hx; [destruct (float ys) as [y|] eqn:Hy|].
  - exfalso. apply H. split; eauto.
  - destruct st; eauto.
  - destruct st; eauto.
Qed.

Lemma process_row_invalid_coordinates p m pk n row st aid tn xs ys :
  row_text row (mapping_get m "asset_id") = Some aid ->
  row_text row (mapping_get m "asset_type") = Some tn ->
  row_text row (mapping_get m "x") = Some xs ->
  row_text row (mapping_get m "y") = Some ys ->
  falsy aid = false -> falsy tn = false ->
  float xs = None \/ float ys = None ->
  process_row (make_context p m pk) n row st
  = with_error (row_prefix n ++ "Invalid coordinates ("
                ++ mapping_get m "x" ++ "=" ++ xs ++ ", "
                ++ mapping_get m "y" ++ "=" ++ ys ++ ")")%string st.
Proof.
  intros Hid Hty Hx Hy Hfid Hfty Hfl.
  unfold process_row, row_body, with_error. simpl.
  step_strip. rewrite Hid. step_strip. rewrite Hty.
  step_strip. rewrite Hx. step_strip. rewrite Hy.
  rewrite Hfid, Hfty.
  destruct Hfl as [-> | Hfl].
  - destruct st; reflexivity.
  - rewrite Hfl. destruct (float xs); destruct st; reflexivity.
Qed.

Lemma process_row_attribute_error p m pk n row st :
  row_text row (mapping_get m "asset_id") = None
  \/ row_text row (mapping_get m "asset_type") = None
  \/ row_text row (mapping_get m "x") = None
  \/ row_text row (mapping_get m "y") = None ->
  process_row (make_context p m pk) n row st
  = with_error (row_prefix n ++ attribute_error)%string st.
Proof.
  intros H.
  unfold process_row, row_body, with_error. simpl.
  step_strip.
  destruct (row_text row (mapping_get m "asset_id")); [|reflexivity].
  step_strip.
  destruct (row_text row (mapping_get m "asset_type")); [|reflexivity].
  step_strip.
  destruct (row_text row (mapping_get m "x")); [|reflexivity].
  step_strip.
  destruct (row_text row (mapping_get m "y")); [|reflexivity].
  destruct H as [H|[H|[H|H]]]; discriminate.
Qed.

Lemma resolve_asset_type_frame tn st :
  exists st1 t,
    resolve_asset_type tn st = (st1, inr t)
    /\ st_results st1 = st_results st
    /\ assets (st_db st1) = assets (st_db st)
    /\ import_batches (st_db st1) = import_batches (st_db st)
    /\ (cache_ok (st_cache st) ->
        cache_ok (st_cache st1) /\ lower (at_name t) = lower tn).
Proof.
  unfold resolve_asset_type, bind, get_state.
  destruct (st_cache st !! lower tn) as [t|] eqn:Hc.
  - exists st, t. unfold ret. repeat split; auto.
  - eexists _, _. unfold AssetType_create, bind, get_state, put_db, put_cache, ret.
    simpl. split; [reflexivity|]. simpl.
    split; [reflexivity|]. split; [reflexivity|]. split; [reflexivity|].
    intros H. split; [|reflexivity].
    intros k t Hk. destruct (decide (lower tn = k)) as [<-|Hne].
    + rewrite lookup_insert_eq in Hk. injection Hk as <-. reflexivity.
    + rewrite lookup_insert_ne in Hk by exact Hne. apply H in Hk. exact Hk.
Qed.

Lemma process_row_passes p m pk n row st aid tn xs ys x y :
  row_text row (mapping_get m "asset_id") = Some aid ->
  row_text row (mapping_get m "asset_type") = Some tn ->
  row_text row (mapping_get m "x") = Some xs ->
  row_text row (mapping_get m "y") = Some ys ->
  falsy aid = false -> falsy tn = false ->
  float xs = Some x -> float ys = Some y ->
  forall st1 t, resolve_asset_type tn st = (st1, inr t) ->
  process_row (make_context p m pk) n row st
  = match row_name m row with
    | None => with_error (row_prefix n ++ attribute_error)%string st1
    | Some nm =>
        match update_or_create p aid (row_defaults p m pk row t nm x y)
                (assets (st_db st1)) with
        | inl msg => with_error (row_prefix n ++ msg)%string st1
        | inr (table, cr) =>
            {| st_db := {| asset_types := asset_types (st_db st1);
                           import_batches := import_batches (st_db st1);
                           assets := table |};
               st_cache := st_cache st1;
               st_results :=
                 add_asset {| e_asset_id := aid; e_created := cr;
                              e_x := x; e_y := y |} (st_results st1) |}
        end
    end.
Proof.
  intros Hid Hty Hx Hy Hfid Hfty Hfx Hfy st1 t Hres.
  unfold process_row, row_body, with_error. simpl.
  step_strip. rewrite Hid. step_strip. rewrite Hty.
  step_strip. rewrite Hx. step_strip. rewrite Hy.
  rewrite Hfid, Hfty, Hfx, Hfy.
  unfold bind at 1. rewrite Hres.
  unfold row_name.
  destruct (falsy (mapping_get m "name")) eqn:Hnm.
  - unfold bind at 1. unfold ret at 1.
    unfold Asset_update_or_create, bind, get_state. simpl.
    fold (row_defaults p m pk row t "" x y).
    destruct (update_or_create p aid _ (assets (st_db st1))) as [msg|[table cr]];
      reflexivity.
  - unfold bind at 1. rewrite method_strip_text.
    destruct (row_text row (mapping_get m "name")) as [nm|]; [|reflexivity].
    unfold Asset_update_or_create, bind, get_state. simpl.
    fold (row_defaults p m pk row t nm x y).
    destruct (update_or_create p aid _ (assets (st_db st1))) as [msg|[table cr]];
      reflexivity.
Qed.

(** *** [update_or_create] on the asset table *)

Lemma asset_key_apply_defaults d a : asset_key (apply_defaults d a) = asset_key a.
Proof. reflexivity. Qed.

Lemma assets_with_key_update k k' d (table : list Asset) :
  assets_with_key k
    ((fun a => if decide (asset_key a = k') then apply_defaults d a else a)
       <$> table)
  = if decide (k = k') then apply_defaults d <$> assets_with_key k table
    else assets_with_key k table.
Proof.
  unfold assets_with_key.
  induction table as [|a table IH].
  - destruct (decide (k = k')); reflexivity.
  - rewrite fmap_cons, !filter_cons.
    destruct (decide (asset_key a = k')) as [Ha|Ha].
    + rewrite asset_key_apply_defaults.
      destruct (decide (asset_key a = k)) as [Hk|Hk].
      * rewrite IH. destruct (decide (k = k')); [reflexivity|congruence].
      * rewrite IH. destruct (decide (k = k')); reflexivity.
    + destruct (decide (asset_key a = k)) as [Hk|Hk].
      * rewrite IH. destruct (decide (k = k')); [congruence|reflexivity].
      * rewrite IH. destruct (decide (k = k')); reflexivity.
Qed.

Lemma keys_update k' d (table : list Asset) :
  asset_key <$>
    ((fun a => if decide (asset_key a = k') then apply_defaults d a else a)
       <$> table)
  = asset_key <$> table.
Proof.
  induction table as [|a table IH]; [reflexivity|].
  rewrite !fmap_cons, IH. destruct (decide (asset_key a = k')); reflexivity.
Qed.

Lemma assets_with_key_app k (l1 l2 : list Asset) :
  assets_with_key k (l1 ++ l2) = assets_with_key k l1 ++ assets_with_key k l2.
Proof. apply filter_app. Qed.

Lemma assets_with_key_new k p aid d :
  assets_with_key k [new_asset p aid d]
  = if decide (k = (p, aid)) then [new_asset p aid d] else [].
Proof.
  unfold assets_with_key. rewrite filter_cons, filter_nil.
  change (asset_key (new_asset p aid d)) with (p, aid).
  destruct (decide ((p, aid) = k)), (decide (k = (p, aid))); congruence.
Qed.

Lemma update_or_create_spec p aid d table :
  upsert_spec p aid d table (update_or_create p aid d table).
Proof.
  unfold update_or_create. fold (assets_with_key (p, aid) table).
  destruct (assets_with_key (p, aid) table) as [|a [|b l]] eqn:Hf.
  - apply upsert_created. exact Hf.
  - eapply upsert_updated. exact Hf.
  - apply upsert_multiple. rewrite Hf. simpl. lia.
Qed.

(** The rows of another key are not touched. *)
Lemma update_or_create_frame p aid d table table' cr k :
  update_or_create p aid d table = inr (table', cr) ->
  k <> (p, aid) ->
  assets_with_key k table' = assets_with_key k table.
Proof.
  intros H Hk. pose proof (update_or_create_spec p aid d table) as Hs.
  rewrite H in Hs. inversion Hs; subst.
  - rewrite assets_with_key_app, assets_with_key_new.
    destruct (decide (k = (p, aid))); [contradiction|]. apply app_nil_r.
  - rewrite assets_with_key_update.
    destruct (decide (k = (p, aid))); [contradiction|reflexivity].
Qed.

(** The rows of the key itself: one row afterwards, with the defaults. *)
Lemma update_or_create_key p aid d table table' cr :
  update_or_create p aid d table = inr (table', cr) ->
  (assets_with_key (p, aid) table = [] /\ cr = true
   /\ assets_with_key (p, aid) table' = [new_asset p aid d])
  \/ (exists a, assets_with_key (p, aid) table = [a] /\ cr = false
      /\ assets_with_key (p, aid) table' = [apply_defaults d a]).
Proof.
  intros H. pose proof (update_or_create_spec p aid d table) as Hs.
  rewrite H in Hs. inversion Hs as [Hf|a Hf|]; subst.
  - left. split; [exact Hf|]. split; [reflexivity|].
    rewrite assets_with_key_app, Hf, assets_with_key_new.
    destruct (decide ((p, aid) = (p, aid))); [reflexivity|contradiction].
  - right. exists a. split; [exact Hf|]. split; [reflexivity|].
    rewrite assets_with_key_update, Hf.
    destruct (decide ((p, aid) = (p, aid))); [reflexivity|contradiction].
Qed.

Lemma update_or_create_keys p aid d table table' cr :
  update_or_create p aid d table = inr (table', cr) ->
  asset_key <$> table'
  = if cr then (asset_key <$> table) ++ [(p, aid)] else asset_key <$> table.
Proof.
  intros H. pose proof (update_or_create_spec p aid d table) as Hs.
  rewrite H in Hs. inversion Hs; subst.
  - rewrite fmap_app. reflexivity.
  - apply keys_update.
Qed.

Lemma assets_with_key_nil_iff k (table : list Asset) :
  assets_with_key k table = [] <-> k ∉ asset_key <$> table.
Proof.
  unfold assets_with_key. induction table as [|a table IH]; simpl.
  - split; [intros _; apply not_elem_of_nil|reflexivity].
  - rewrite filter_cons, not_elem_of_cons.
    destruct (decide (asset_key a = k)) as [Hk|Hk].
    + split; [discriminate|]. intros [Hne _]. congruence.
    + rewrite IH. split; [intros H; split; [congruence|exact H]|intros [_ H]; exact H].
Qed.


(** *** One iteration, by kind of row *)

Lemma passes_validation_inv m row :
  fails_validation m row = false ->
  exists aid tn xs ys x y,
    row_text row (mapping_get m "asset_id") = Some aid
    /\ row_text row (mapping_get m "asset_type") = Some tn
    /\ row_text row (mapping_get m "x") = Some xs
    /\ row_text row (mapping_get m "y") = Some ys
    /\ falsy aid = false /\ falsy tn = false
    /\ float xs = Some x /\ float ys = Some y.
Proof.
  unfold fails_validation. intros H.
  destruct (row_text row (mapping_get m "asset_id")) as [aid|]; [|discriminate].
  destruct (row_text row (mapping_get m "asset_type")) as [tn|]; [|discriminate].
  destruct (row_text row (mapping_get m "x")) as [xs|]; [|discriminate].
  destruct (row_text row (mapping_get m "y")) as [ys|]; [|discriminate].
  apply orb_false_elim in H as [H Hfl].
  apply orb_false_elim in H as [Hid Hty].
  apply negb_false_iff, bool_decide_eq_true in Hfl as [[x Hx] [y Hy]].
  exists aid, tn, xs, ys, x, y. repeat split; auto.
Qed.

Lemma valid_row_inv m row flds :
  valid_row m row = Some flds ->
  exists xs ys,
    row_text row (mapping_get m "asset_id") = Some (f_asset_id flds)
    /\ row_text row (mapping_get m "asset_type") = Some (f_type_name flds)
    /\ row_text row (mapping_get m "x") = Some xs
    /\ row_text row (mapping_get m "y") = Some ys
    /\ falsy (f_asset_id flds) = false /\ falsy (f_type_name flds) = false
    /\ float xs = Some (f_x flds) /\ float ys = Some (f_y flds)
    /\ row_name m row = Some (f_name flds).
Proof.
  unfold valid_row. intros H.
  destruct (row_text row (mapping_get m "asset_id")) as [aid|]; [|discriminate].
  destruct (row_text row (mapping_get m "asset_type")) as [tn|]; [|discriminate].
  destruct (row_text row (mapping_get m "x")) as [xs|]; [|discriminate].
  destruct (row_text row (mapping_get m "y")) as [ys|]; [|discriminate].
  simpl in H.
  destruct (falsy aid) eqn:Hid; [discriminate|].
  destruct (falsy tn) eqn:Hty; [discriminate|].
  simpl in H.
  destruct (float xs) as [x|] eqn:Hfx; [|discriminate].
  destruct (float ys) as [y|] eqn:Hfy; [|discriminate].
  destruct (row_name m row) as [nm|]; [|discriminate].
  simpl in H. injection H as <-. simpl.
  exists xs, ys. repeat split; auto.
Qed.

Lemma valid_row_intro m row aid tn xs ys x y nm :
  row_text row (mapping_get m "asset_id") = Some aid ->
  row_text row (mapping_get m "asset_type") = Some tn ->
  row_text row (mapping_get m "x") = Some xs ->
  row_text row (mapping_get m "y") = Some ys ->
  falsy aid = false -> falsy tn = false ->
  float xs = Some x -> float ys = Some y ->
  row_name m row = Some nm ->
  valid_row m row
  = Some {| f_asset_id := aid; f_type_name := tn; f_x := x; f_y := y;
            f_name := nm |}.
Proof.
  intros Hid Hty Hx Hy Hfid Hfty Hfx Hfy Hnm. unfold valid_row.
  rewrite Hid, Hty, Hx, Hy. simpl. rewrite Hfid, Hfty. simpl.
  rewrite Hfx, Hfy, Hnm. reflexivity.
Qed.

(** A valid row whose key matches at most one asset is upserted. *)
Lemma process_row_valid p m pk n row st flds :
  valid_row m row = Some flds ->
  length (assets_with_key (p, f_asset_id flds) (assets (st_db st))) <= 1 ->
  exists st1 t table cr,
    resolve_asset_type (f_type_name flds) st = (st1, inr t)
    /\ update_or_create p (f_asset_id flds) (defaults_of p m pk row t flds)
         (assets (st_db st)) = inr (table, cr)
    /\ process_row (make_context p m pk) n row st
       = {| st_db := {| asset_types := asset_types (st_db st1);
                        import_batches := import_batches (st_db st);
                        assets := table |};
            st_cache := st_cache st1;
            st_results := add_asset (entry_of flds cr) (st_results st) |}.
Proof.
  intros Hv Hlen.
  destruct (valid_row_inv _ _ _ Hv)
    as (xs & ys & Hid & Hty & Hx & Hy & Hfid & Hfty & Hfx & Hfy & Hnm).
  destruct (resolve_asset_type_frame (f_type_name flds) st)
    as (st1 & t & Hres & Hr & Ha & Hb & _).
  rewrite (process_row_passes p m pk n row st _ _ _ _ _ _
             Hid Hty Hx Hy Hfid Hfty Hfx Hfy st1 t Hres).
  rewrite Hnm, Ha, Hb, Hr.
  fold (defaults_of p m pk row t flds).
  pose proof (update_or_create_spec p (f_asset_id flds)
                (defaults_of p m pk row t flds) (assets (st_db st))) as Hs.
  destruct (update_or_create p (f_asset_id flds) _ (assets (st_db st)))
    as [msg|[table cr]] eqn:Hu.
  - inversion Hs; subst. lia.
  - exists st1, t, table, cr. auto.
Qed.

(** Every iteration keeps the batch table and ends in one of two ways:
    an error for the row and the asset table as it was, or an upsert of
    a valid row and an entry for it. *)
Lemma process_row_step p m pk n row st :
  let st' := process_row (make_context p m pk) n row st in
  import_batches (st_db st') = import_batches (st_db st)
  /\ (cache_ok (st_cache st) -> cache_ok (st_cache st'))
  /\ ((exists msg,
         st_results st' = add_error (row_prefix n ++ msg)%string (st_results st)
         /\ assets (st_db st') = assets (st_db st))
      \/ (exists flds t cr,
            valid_row m row = Some flds
            /\ update_or_create p (f_asset_id flds)
                 (defaults_of p m pk row t flds) (assets (st_db st))
               = inr (assets (st_db st'), cr)
            /\ st_results st' = add_asset (entry_of flds cr) (st_results st)
            /\ (cache_ok (st_cache st) ->
                lower (at_name t) = lower (f_type_name flds)))).
Proof.
  simpl. destruct (fails_validation m row) eqn:Hf.
  - destruct (process_row_fails p m pk n row st Hf) as [msg ->].
    split; [reflexivity|]. split; [auto|]. left. exists msg. auto.
  - destruct (passes_validation_inv _ _ Hf)
      as (aid & tn & xs & ys & x & y & Hid & Hty & Hx & Hy & Hfid & Hfty & Hfx & Hfy).
    destruct (resolve_asset_type_frame tn st)
      as (st1 & t & Hres & Hr & Ha & Hb & Hc).
    rewrite (process_row_passes p m pk n row st _ _ _ _ _ _
               Hid Hty Hx Hy Hfid Hfty Hfx Hfy st1 t Hres).
    destruct (row_name m row) as [nm|] eqn:Hnm.
    + destruct (update_or_create p aid _ (assets (st_db st1)))
        as [msg|[table cr]] eqn:Hu.
      * simpl. split; [exact Hb|]. split; [intros H; apply Hc, H|].
        left. exists msg. rewrite Hr, Ha. auto.
      * simpl. split; [exact Hb|]. split; [intros H; apply Hc, H|].
        right.
        exists {| f_asset_id := aid; f_type_name := tn; f_x := x; f_y := y;
                  f_name := nm |}, t, cr.
        split; [apply (valid_row_intro m row aid tn xs ys); assumption|].
        rewrite Ha in Hu. split; [exact Hu|]. rewrite Hr.
        split; [reflexivity|]. intros H. apply Hc, H.
    + simpl. split; [exact Hb|]. split; [intros H; apply Hc, H|].
      left. exists attribute_error. rewrite Hr, Ha. auto.
Qed.

(** *** The loop *)

Lemma process_rows_app c n (l1 l2 : list Row) st :
  process_rows c n (l1 ++ l2) st
  = process_rows c (n + length l1) l2 (process_rows c n l1 st).
Proof.
  revert n st. induction l1 as [|r l1 IH]; intros n st; simpl.
  - rewrite Nat.add_0_r. reflexivity.
  - rewrite IH. f_equal. lia.
Qed.

Lemma process_rows_cons c n row (rows : list Row) st :
  process_rows c n (row :: rows) st
  = process_rows c (S n) rows (process_row c n row st).
Proof. reflexivity. Qed.

Lemma count_created_cons e l :
  count_created (e :: l) = (if e_created e then 1 else 0) + count_created l.
Proof.
  unfold count_created. rewrite filter_cons.
  destruct (e_created e); simpl; reflexivity.
Qed.

Lemma count_updated_cons e l :
  count_updated (e :: l) = (if e_created e then 0 else 1) + count_updated l.
Proof.
  unfold count_updated. rewrite filter_cons.
  destruct (e_created e); simpl; reflexivity.
Qed.

(** Every row leaves one outcome in [results], errors under the number
    of their row, and the batch table is not written by the loop. *)
Lemma process_rows_outcomes p m pk (rows : list Row) n st :
  let st' := process_rows (make_context p m pk) n rows st in
  exists outs : list (string + AssetEntry),
    length outs = length rows
    /\ errors (st_results st') = errors (st_results st) ++ recorded_errors n outs
    /\ r_assets (st_results st')
       = r_assets (st_results st) ++ recorded_entries outs
    /\ created (st_results st')
       = created (st_results st) + count_created (recorded_entries outs)
    /\ updated (st_results st')
       = updated (st_results st) + count_updated (recorded_entries outs)
    /\ import_batches (st_db st') = import_batches (st_db st)
    /\ (cache_ok (st_cache st) -> cache_ok (st_cache st')).
Proof.
  revert n st. induction rows as [|row rows IH]; intros n st; simpl.
  - exists []. simpl. rewrite !app_nil_r. repeat split; auto.
  - destruct (IH (S n) (process_row (make_context p m pk) n row st))
      as (outs & Hlen & He & Ha & Hc & Hu & Hb & Hk).
    destruct (process_row_step p m pk n row st) as (Hb1 & Hk1 & Hcase).
    simpl in Hb1, Hk1, Hcase.
    destruct Hcase as [(msg & Hr & _)|(flds & t & cr & _ & _ & Hr & _)].
    + exists (inl msg :: outs). simpl.
      rewrite He, Ha, Hc, Hu, Hb, Hr, Hb1. simpl.
      rewrite <- app_assoc. simpl. repeat split; auto.
    + exists (inr (entry_of flds cr) :: outs). simpl.
      rewrite He, Ha, Hc, Hu, Hb, Hr, Hb1. simpl.
      rewrite <- app_assoc, count_created_cons, count_updated_cons. simpl.
      repeat split; auto; destruct cr; simpl; lia.
Qed.

Lemma errors_kept p m pk (rows : list Row) n st msg :
  msg ∈ errors (st_results st) ->
  msg ∈ errors (st_results (process_rows (make_context p m pk) n rows st)).
Proof.
  intros H.
  destruct (process_rows_outcomes p m pk rows n st) as (outs & _ & He & _).
  simpl in He. rewrite He. apply elem_of_app. left. exact H.
Qed.

(** Rows that fail the validation only add their errors. *)
Lemma process_rows_all_fail p m pk (rows : list Row) n st :
  Forall (fun row => fails_validation m row = true) rows ->
  exists msgs : list string,
    length msgs = length rows
    /\ process_rows (make_context p m pk) n rows st
       = {| st_db := st_db st; st_cache := st_cache st;
            st_results :=
              {| created := created (st_results st);
                 updated := updated (st_results st);
                 errors := errors (st_results st)
                           ++ recorded_errors n (inl <$> msgs);
                 r_assets := r_assets (st_results st) |} |}.
Proof.
  intros H. revert n st.
  induction H as [|row rows Hrow _ IH]; intros n st; simpl.
  - exists []. simpl. rewrite app_nil_r. destruct st as [? ? []]; auto.
  - destruct (process_row_fails p m pk n row st Hrow) as [msg ->].
    destruct (IH (S n) (with_error (row_prefix n ++ msg)%string st))
      as (msgs & Hlen & ->).
    exists (msg :: msgs). simpl. rewrite <- app_assoc. simpl.
    split; [lia|reflexivity].
Qed.


(** *** The header check *)

Lemma find_missing_header fns mapping roles :
  exists missing, find_missing (Some fns) mapping roles = inr missing.
Proof.
  induction roles as [|role roles [missing IH]]; simpl; [eauto|].
  rewrite IH. simpl.
  destruct (falsy (mapping_get mapping role)); [eauto|].
  destruct (decide (mapping_get mapping role ∈ fns)); eauto.
Qed.

Lemma find_missing_absent fns mapping roles role :
  role ∈ roles ->
  mapping_get mapping role ∉ fns ->
  exists entry missing,
    find_missing (Some fns) mapping roles = inr (entry :: missing).
Proof.
  intros Hin Hcol. induction roles as [|r roles IH]; [inversion Hin|].
  simpl. destruct (find_missing_header fns mapping roles) as [rest Hrest].
  apply elem_of_cons in Hin as [<-|Hin].
  - rewrite Hrest. simpl.
    destruct (falsy (mapping_get mapping role)); [eauto|].
    destruct (decide (mapping_get mapping role ∈ fns)); [contradiction|eauto].
  - destruct (IH Hin) as (entry & missing & Hm). rewrite Hm. simpl.
    destruct (falsy (mapping_get mapping r)); [eauto|].
    destruct (decide (mapping_get mapping r ∈ fns)); eauto.
Qed.

Lemma import_returns db p f cm fn :
  header_ok f cm ->
  import_assets_from_csv db p f cm fn
  = Returns (st_results (loop_end db p f cm fn))
      (ImportBatch_save_count (length (import_batches db))
         (created (st_results (loop_end db p f cm fn))
          + updated (st_results (loop_end db p f cm fn)))
         (st_db (loop_end db p f cm fn))).
Proof.
  unfold header_ok, import_assets_from_csv. intros ->. reflexivity.
Qed.

Lemma import_propagates db p f cm fn e d :
  import_assets_from_csv db p f cm fn = Propagates e d ->
  d = db /\ ~ header_ok f cm.
Proof.
  unfold header_ok, import_assets_from_csv.
  destruct (find_missing (fieldnames f) (merge_mapping cm) required_roles)
    as [e'|[|entry missing]]; simpl; intros H.
  - injection H as _ <-. split; [reflexivity|discriminate].
  - discriminate.
  - injection H as _ <-. split; [reflexivity|discriminate].
Qed.

(** C1. When a required role is mapped to a column that the header of
    the file does not have, the import raises [ValueError] and hands the
    database back as it received it: no batch, no asset, no asset type. *)
Theorem missing_column_rejected db p f cm fn fns role :
  fieldnames f = Some fns ->
  role ∈ required_roles ->
  mapping_get (merge_mapping cm) role ∉ fns ->
  exists msg, import_assets_from_csv db p f cm fn = Propagates (ValueError msg) db.
Proof.
  intros Hf Hrole Hcol. unfold import_assets_from_csv. rewrite Hf.
  destruct (find_missing_absent fns (merge_mapping cm) required_roles role
              Hrole Hcol) as (entry & missing & ->).
  eauto.
Qed.

Lemma alter_last_batch (l : list ImportBatch) (b : ImportBatch) g :
  alter g (length l) (l ++ [b]) = l ++ [g b].
Proof.
  induction l as [|x l IH]; simpl; [reflexivity|].
  f_equal. exact IH.
Qed.

(** C6. A call that returns has appended one batch to the batch table.
    The loop runs with that batch at count 0 and never writes the batch
    table; the single write after the loop sets the count to the sum of
    the two counters of the result. *)
Theorem batch_count_is_created_plus_updated db p f cm fn res db' :
  import_assets_from_csv db p f cm fn = Returns res db' ->
  import_batches (st_db (loop_end db p f cm fn))
  = import_batches db
    ++ [{| ib_project := p; ib_filename := batch_filename fn f;
           ib_asset_count := 0 |}]
  /\ import_batches db'
     = import_batches db
       ++ [{| ib_project := p; ib_filename := batch_filename fn f;
              ib_asset_count := created res + updated res |}].
Proof.
  intros H.
  assert (Hok : header_ok f cm).
  { unfold header_ok. unfold import_assets_from_csv in H.
    destruct (find_missing (fieldnames f) (merge_mapping cm) required_roles)
      as [e|[|entry missing]]; [discriminate|reflexivity|discriminate]. }
  rewrite (import_returns db p f cm fn Hok) in H. injection H as <- <-.
  destruct (process_rows_outcomes p (merge_mapping cm)
              (length (import_batches db)) (DictReader_rows f) 2
              (loop_start db p f fn)) as (outs & _ & _ & _ & _ & _ & Hb & _).
  simpl in Hb. fold (loop_context db p cm) in Hb.
  fold (loop_end db p f cm fn) in Hb.
  split; [exact Hb|].
  simpl. rewrite Hb. simpl. apply alter_last_batch.
Qed.

Lemma recorded_errors_length n (msgs : list string) :
  length (recorded_errors n (inl <$> msgs)) = length msgs.
Proof.
  revert n. induction msgs as [|msg msgs IH]; intros n; simpl; [reflexivity|].
  rewrite IH. reflexivity.
Qed.

(** *** Failed checks, outcomes and the upload *)

Lemma process_row_check p m pk n row st msg :
  check_message m row = Some msg ->
  process_row (make_context p m pk) n row st
  = with_error (row_prefix n ++ msg)%string st.
Proof.
  unfold check_message, process_row, row_body, with_error. simpl.
  intros H.
  step_strip.
  destruct (row_text row (mapping_get m "asset_id")) as [aid|];
    [|injection H as <-; reflexivity].
  step_strip.
  destruct (row_text row (mapping_get m "asset_type")) as [tn|];
    [|injection H as <-; reflexivity].
  step_strip.
  destruct (row_text row (mapping_get m "x")) as [xs|];
    [|injection H as <-; reflexivity].
  step_strip.
  destruct (row_text row (mapping_get m "y")) as [ys|];
    [|injection H as <-; reflexivity].
  destruct (falsy aid).
  { injection H as <-. destruct st; reflexivity. }
  destruct (falsy tn).
  { injection H as <-. destruct st; reflexivity. }
  destruct (float xs) as [x|]; [destruct (float ys) as [y|]|].
  - discriminate.
  - injection H as <-. destruct st; reflexivity.
  - injection H as <-. destruct st; reflexivity.
Qed.

Lemma check_message_fails m row :
  fails_validation m row = negb (bool_decide (check_message m row = None)).
Proof.
  unfold fails_validation, check_message.
  destruct (row_text row (mapping_get m "asset_id")) as [aid|]; [|reflexivity].
  destruct (row_text row (mapping_get m "asset_type")) as [tn|]; [|reflexivity].
  destruct (row_text row (mapping_get m "x")) as [xs|]; [|reflexivity].
  destruct (row_text row (mapping_get m "y")) as [ys|]; [|reflexivity].
  destruct (falsy aid); [reflexivity|].
  destruct (falsy tn); [reflexivity|]. simpl.
  destruct (float xs) as [x|]; [destruct (float ys) as [y|]|].
  - rewrite !bool_decide_eq_true_2; [reflexivity|reflexivity|split; eauto].
  - rewrite !bool_decide_eq_false_2; [reflexivity|discriminate|].
    intros [_ [? ?]]; discriminate.
  - rewrite !bool_decide_eq_false_2; [reflexivity|discriminate|].
    intros [[? ?] _]; discriminate.
Qed.

Lemma valid_row_check m row flds :
  valid_row m row = Some flds -> check_message m row = None.
Proof.
  intros H.
  destruct (valid_row_inv _ _ _ H)
    as (xs & ys & Hid & Hty & Hx & Hy & Hfid & Hfty & Hfx & Hfy & Hnm).
  unfold check_message. rewrite Hid, Hty, Hx, Hy, Hfid, Hfty, Hfx, Hfy.
  reflexivity.
Qed.




Lemma import_upload_complete db p u cm fn :
  decodes u = true -> stops u = StopIteration ->
  import_upload db p u cm fn
  = match import_assets_from_csv db p (yielded u) cm fn with
    | Returns res db' => CallReturns res db'
    | Propagates e db' => CallRaises (HeaderCheck e) db'
    end.
Proof.
  intros Hd Hs. unfold import_upload. rewrite Hd, Hs.
  destruct (records (yielded u)); reflexivity.
Qed.


Lemma import_upload_raises db p u cm fn e d :
  import_upload db p u cm fn = CallRaises e d -> d = db.
Proof.
  unfold import_upload. destruct (decodes u); [|congruence].
  destruct (import_assets_from_csv db p (yielded u) cm fn) as [res db'|e' db']
    eqn:Hi.
  - destruct (records (yielded u)), (stops u); congruence.
  - apply import_propagates in Hi as [-> _].
    destruct (records (yielded u)), (stops u); congruence.
Qed.

(** Rows that fail a check only add the message of their check. *)
Lemma process_rows_all_checked p m pk (rows : list Row) n st :
  Forall (fun row => fails_validation m row = true) rows ->
  exists msgs : list string,
    Forall2 (fun row msg => check_message m row = Some msg) rows msgs
    /\ process_rows (make_context p m pk) n rows st
       = {| st_db := st_db st; st_cache := st_cache st;
            st_results :=
              {| created := created (st_results st);
                 updated := updated (st_results st);
                 errors := errors (st_results st)
                           ++ recorded_errors n (inl <$> msgs);
                 r_assets := r_assets (st_results st) |} |}.
Proof.
  intros H. revert n st.
  induction H as [|row rows Hrow _ IH]; intros n st.
  - exists []. split; [constructor|]. simpl. rewrite app_nil_r.
    destruct st as [? ? []]; reflexivity.
  - rewrite check_message_fails in Hrow.
    apply negb_true_iff, bool_decide_eq_false in Hrow.
    destruct (check_message m row) as [msg|] eqn:Hc; [|contradiction].
    rewrite process_rows_cons.
    rewrite (process_row_check p m pk n row st msg Hc).
    destruct (IH (S n) (with_error (row_prefix n ++ msg)%string st))
      as (msgs & Hall & ->).
    exists (msg :: msgs). split; [constructor; assumption|].
    simpl. rewrite <- app_assoc. reflexivity.
Qed.

Lemma import_returns_batch db p f cm fn res db' :
  import_assets_from_csv db p f cm fn = Returns res db' ->
  import_batches db'
  = import_batches db
    ++ [{| ib_project := p; ib_filename := batch_filename fn f;
           ib_asset_count := created res + updated res |}].
Proof.
  intros H.
  assert (Hok : header_ok f cm).
  { unfold header_ok. unfold import_assets_from_csv in H.
    destruct (find_missing (fieldnames f) (merge_mapping cm) required_roles)
      as [e|[|entry missing]]; [discriminate|reflexivity|discriminate]. }
  rewrite (import_returns db p f cm fn Hok) in H. injection H as <- <-.
  destruct (process_rows_outcomes p (merge_mapping cm)
              (length (import_batches db)) (DictReader_rows f) 2
              (loop_start db p f fn)) as (outs & _ & _ & _ & _ & _ & Hb & _).
  simpl in Hb. fold (loop_context db p cm) in Hb.
  fold (loop_end db p f cm fn) in Hb.
  simpl. rewrite Hb. simpl. apply alter_last_batch.
Qed.

Lemma import_upload_returns db p u cm fn res db' :
  import_upload db p u cm fn = CallReturns res db' ->
  decodes u = true /\ stops u = StopIteration
  /\ import_assets_from_csv db p (yielded u) cm fn = Returns res db'.
Proof.
  unfold import_upload. destruct (decodes u); [|discriminate].
  destruct (import_assets_from_csv db p (yielded u) cm fn) as [r d|e d].
  - destruct (records (yielded u)), (stops u); try discriminate;
      intros H; injection H as <- <-; auto.
  - destruct (records (yielded u)), (stops u); discriminate.
Qed.

(** C9.  An upload that decodes, that the reader reads to its end and
    that has the required columns, with ASCII text in the cells the body
    reads: when every data row fails a check at the head of the loop
    body, the call still returns and commits its batch, with count 0,
    both counters 0, no entry, and one error per row, each the message
    of the check its row fails under the number of the row; the asset
    and asset-type tables are as before.  For any upload, a call that
    returns has written its batch, and a call that raises, whatever it
    raises, leaves the database as it was: the batch is unwritten only
    when the call as a whole fails. *)
Theorem all_rows_failing_still_commits db p u cm fn :
  decodes u = true ->
  stops u = StopIteration ->
  header_ok (yielded u) cm ->
  ascii_rows (merge_mapping cm) (DictReader_rows (yielded u)) = true ->
  Forall (fun row => fails_validation (merge_mapping cm) row = true)
    (DictReader_rows (yielded u)) ->
  (exists res db' msgs,
     import_upload db p u cm fn = CallReturns res db'
     /\ created res = 0 /\ updated res = 0 /\ r_assets res = []
     /\ Forall2 (fun row msg => check_message (merge_mapping cm) row = Some msg)
          (DictReader_rows (yielded u)) msgs
     /\ errors res = recorded_errors 2 (inl <$> msgs)
     /\ length (errors res) = length (DictReader_rows (yielded u))
     /\ import_batches db'
        = import_batches db
          ++ [{| ib_project := p;
                 ib_filename := batch_filename fn (yielded u);
                 ib_asset_count := 0 |}]
     /\ assets db' = assets db
     /\ asset_types db' = asset_types db)
  /\ (forall u' cm' fn',
        (forall res d,
           import_upload db p u' cm' fn' = CallReturns res d ->
           import_batches d
           = import_batches db
             ++ [{| ib_project := p;
                    ib_filename := batch_filename fn' (yielded u');
                    ib_asset_count := created res + updated res |}])
        /\ (forall e d,
              import_upload db p u' cm' fn' = CallRaises e d -> d = db)).
Proof.
  intros Hd Hs Hok _ Hall. split.
  - destruct (process_rows_all_checked p (merge_mapping cm)
                (length (import_batches db)) (DictReader_rows (yielded u)) 2
                (loop_start db p (yielded u) fn) Hall) as (msgs & Hmsgs & Hst).
    fold (loop_context db p cm) in Hst.
    fold (loop_end db p (yielded u) cm fn) in Hst.
    eexists _, _, msgs. split.
    { rewrite (import_upload_complete db p u cm fn Hd Hs).
      rewrite (import_returns db p (yielded u) cm fn Hok). reflexivity. }
    rewrite Hst. simpl. rewrite recorded_errors_length.
    split; [reflexivity|]. split; [reflexivity|]. split; [reflexivity|].
    split; [exact Hmsgs|]. split; [reflexivity|].
    split; [symmetry; exact (Forall2_length _ _ _ Hmsgs)|].
    split; [apply alter_last_batch|]. split; reflexivity.
  - intros u' cm' fn'. split.
    + intros res d H. apply import_upload_returns in H as (_ & _ & H).
      exact (import_returns_batch _ _ _ _ _ _ _ H).
    + intros e d H. exact (import_upload_raises _ _ _ _ _ _ _ H).
Qed.


Lemma falsy_false (s : string) : s <> "" -> falsy s = false.
Proof. destruct s; [contradiction|reflexivity]. Qed.

(** C2, as amended.  In a file with ASCII text in the cells the body
    reads, a data row whose asset id and type name are not
    empty and whose x or y text is rejected by [float] adds the error
    [Row n: Invalid coordinates (colx=.., coly=..)], which names both
    coordinate columns with their texts, under the number of the row;
    the iteration changes nothing else, so no asset is persisted for the
    row, and the loop goes on with the next row.  The error is in the
    result of the call. *)
Theorem invalid_coordinates_recorded db p f cm fn l1 row l2 aid tn xs ys :
  header_ok f cm ->
  ascii_rows (merge_mapping cm) (DictReader_rows f) = true ->
  DictReader_rows f = l1 ++ row :: l2 ->
  row_text row (mapping_get (merge_mapping cm) "asset_id") = Some aid ->
  row_text row (mapping_get (merge_mapping cm) "asset_type") = Some tn ->
  row_text row (mapping_get (merge_mapping cm) "x") = Some xs ->
  row_text row (mapping_get (merge_mapping cm) "y") = Some ys ->
  aid <> "" -> tn <> "" ->
  float xs = None \/ float ys = None ->
  let c := loop_context db p cm in
  let before := process_rows c 2 l1 (loop_start db p f fn) in
  let msg := (row_prefix (2 + length l1) ++ "Invalid coordinates ("
              ++ mapping_get (merge_mapping cm) "x" ++ "=" ++ xs ++ ", "
              ++ mapping_get (merge_mapping cm) "y" ++ "=" ++ ys ++ ")")%string in
  exists res db',
    import_assets_from_csv db p f cm fn = Returns res db'
    /\ msg ∈ errors res
    /\ process_row c (2 + length l1) row before = with_error msg before
    /\ loop_end db p f cm fn
       = process_rows c (3 + length l1) l2 (with_error msg before).
Proof.
  intros Hok _ Hrows Hid Hty Hx Hy Haid Htn Hfl c before msg.
  assert (Hrow : process_row c (2 + length l1) row before = with_error msg before).
  { apply (process_row_invalid_coordinates p (merge_mapping cm) _ _ row before
             aid tn xs ys); auto using falsy_false. }
  assert (Hend : loop_end db p f cm fn
                 = process_rows c (3 + length l1) l2 (with_error msg before)).
  { unfold loop_end. rewrite Hrows, process_rows_app, process_rows_cons.
    fold c. fold before. rewrite Hrow. reflexivity. }
  eexists _, _. split; [apply import_returns; exact Hok|].
  split; [|split; [exact Hrow|exact Hend]].
  rewrite Hend. apply errors_kept. simpl.
  apply elem_of_app. right. apply list_elem_of_singleton. reflexivity.
Qed.

(** *** Valid rows and the keys of the asset table *)

Lemma valid_row_asset_id m row flds :
  valid_row m row = Some flds -> row_asset_id m row = Some (f_asset_id flds).
Proof.
  intros H. destruct (valid_row_inv _ _ _ H) as (xs & ys & Hid & _). exact Hid.
Qed.







Lemma loop_start_keys db p f fn :
  st_keys (loop_start db p f fn) = asset_key <$> assets db.
Proof. reflexivity. Qed.



(** *** The assets of one key through the loop *)

Lemma process_row_key_frame p m pk n row st aid :
  row_asset_id m row <> Some aid ->
  assets_with_key (p, aid)
    (assets (st_db (process_row (make_context p m pk) n row st)))
  = assets_with_key (p, aid) (assets (st_db st)).
Proof.
  intros Hne.
  destruct (process_row_step p m pk n row st) as (_ & _ & Hcase).
  simpl in Hcase.
  destruct Hcase as [(msg & _ & ->)|(flds & t & cr & Hv & Hu & _)];
    [reflexivity|].
  eapply update_or_create_frame; [exact Hu|].
  intros Heq. apply Hne. rewrite (valid_row_asset_id _ _ _ Hv).
  congruence.
Qed.

Lemma process_rows_key_frame p m pk (rows : list Row) n st aid :
  Forall (fun row => row_asset_id m row <> Some aid) rows ->
  assets_with_key (p, aid)
    (assets (st_db (process_rows (make_context p m pk) n rows st)))
  = assets_with_key (p, aid) (assets (st_db st)).
Proof.
  intros H. revert n st. induction H as [|row rows Hrow _ IH]; intros n st;
    simpl; [reflexivity|].
  rewrite IH. apply process_row_key_frame. exact Hrow.
Qed.

Lemma process_row_key_one p m pk n row st k :
  length (assets_with_key k (assets (st_db st))) = 1 ->
  length (assets_with_key k
            (assets (st_db (process_row (make_context p m pk) n row st)))) = 1.
Proof.
  intros Hone.
  destruct (process_row_step p m pk n row st) as (_ & _ & Hcase).
  simpl in Hcase.
  destruct Hcase as [(msg & _ & ->)|(flds & t & cr & Hv & Hu & _)];
    [exact Hone|].
  destruct (decide (k = (p, f_asset_id flds))) as [->|Hne].
  - destruct (update_or_create_key _ _ _ _ _ _ Hu)
      as [(Hf & _ & _)|(a & _ & _ & ->)]; [|reflexivity].
    rewrite Hf in Hone. discriminate.
  - rewrite (update_or_create_frame _ _ _ _ _ _ _ Hu Hne). exact Hone.
Qed.

Lemma process_rows_key_one p m pk (rows : list Row) n st k :
  length (assets_with_key k (assets (st_db st))) = 1 ->
  length (assets_with_key k
            (assets (st_db (process_rows (make_context p m pk) n rows st)))) = 1.
Proof.
  revert n st. induction rows as [|row rows IH]; intros n st Hone; simpl;
    [exact Hone|].
  apply IH, process_row_key_one, Hone.
Qed.

Lemma cache_ok_build (l : list AssetType) : cache_ok (build_cache l).
Proof.
  unfold build_cache.
  assert (H : forall acc, cache_ok acc ->
            cache_ok (foldl (fun cache at' => <[lower (at_name at') := at']> cache)
                        acc l)).
  { induction l as [|t l IH]; intros acc Hacc; simpl; [exact Hacc|].
    apply IH. intros k t' Hk.
    destruct (decide (lower (at_name t) = k)) as [<-|Hne].
    - rewrite lookup_insert_eq in Hk. injection Hk as <-. reflexivity.
    - rewrite lookup_insert_ne in Hk by exact Hne. apply Hacc, Hk. }
  apply H. intros k t Hk. rewrite lookup_empty in Hk. discriminate.
Qed.

Lemma process_rows_results p m pk (rows : list Row) n st :
  let st' := process_rows (make_context p m pk) n rows st in
  exists entries,
    r_assets (st_results st') = r_assets (st_results st) ++ entries
    /\ (cache_ok (st_cache st) -> cache_ok (st_cache st')).
Proof.
  destruct (process_rows_outcomes p m pk rows n st)
    as (outs & _ & _ & Ha & _ & _ & _ & Hc).
  simpl. eauto.
Qed.

Lemma results_counted db p f cm fn :
  let r := st_results (loop_end db p f cm fn) in
  created r = count_created (r_assets r)
  /\ updated r = count_updated (r_assets r).
Proof.
  destruct (process_rows_outcomes p (merge_mapping cm)
              (length (import_batches db)) (DictReader_rows f) 2
              (loop_start db p f fn))
    as (outs & _ & _ & Ha & Hc & Hu & _).
  fold (loop_context db p cm) in Ha, Hc, Hu.
  fold (loop_end db p f cm fn) in Ha, Hc, Hu.
  simpl in *. rewrite Ha, Hc, Hu. auto.
Qed.


(** C8, as amended.  The cells the body reads and the names of the
    asset types of the database are ASCII text.  Two valid rows of one
    call carry the same asset id, which no asset of the project has
    beforehand and no earlier row carries.  Then the first row is entered as created and the second
    as updated, the counters being the numbers of such entries.  When no
    later row carries the id, exactly one asset has that key afterwards,
    and its coordinates, name, type, metadata and batch are those of the
    second row. *)
Theorem duplicate_rows_in_one_call db p f cm fn l1 r1 l2 r2 l3 flds1 flds2 aid :
  header_ok f cm ->
  ascii_rows (merge_mapping cm) (DictReader_rows f) = true ->
  ascii_types db = true ->
  DictReader_rows f = l1 ++ r1 :: l2 ++ r2 :: l3 ->
  valid_row (merge_mapping cm) r1 = Some flds1 ->
  valid_row (merge_mapping cm) r2 = Some flds2 ->
  f_asset_id flds1 = aid -> f_asset_id flds2 = aid ->
  assets_with_key (p, aid) (assets db) = [] ->
  Forall (fun row => row_asset_id (merge_mapping cm) row <> Some aid) l1 ->
  Forall (fun row => row_asset_id (merge_mapping cm) row <> Some aid) l3 ->
  exists res db' es1 es2 es3 a,
    import_assets_from_csv db p f cm fn = Returns res db'
    /\ r_assets res
       = es1 ++ entry_of flds1 true :: es2 ++ entry_of flds2 false :: es3
    /\ created res = count_created (r_assets res)
    /\ updated res = count_updated (r_assets res)
    /\ assets_with_key (p, aid) (assets db') = [a]
    /\ a_original_x a = f_x flds2 /\ a_original_y a = f_y flds2
    /\ a_name a = f_name flds2
    /\ lower (at_name (a_asset_type a)) = lower (f_type_name flds2)
    /\ a_metadata a = build_metadata (loop_context db p cm) r2
    /\ a_import_batch a = Some (length (import_batches db)).
Proof.
  intros Hok _ _ Hrows Hv1 Hv2 Hid1 Hid2 Hnew Hl1 Hl3.
  set (m := merge_mapping cm) in *.
  set (pk := length (import_batches db)).
  set (st0 := loop_start db p f fn).
  (* the rows before the first of the two *)
  set (s1 := process_rows (make_context p m pk) 2 l1 st0).
  assert (Hk1 : assets_with_key (p, aid) (assets (st_db s1)) = []).
  { unfold s1. rewrite process_rows_key_frame by exact Hl1. exact Hnew. }
  destruct (process_rows_results p m pk l1 2 st0) as (es1 & Ha1 & Hc1).
  fold s1 in Ha1, Hc1. simpl in Ha1.
  (* the first row creates the asset *)
  set (n1 := 2 + length l1).
  destruct (process_row_valid p m pk n1 r1 s1 flds1 Hv1) as
    (st1a & t1 & table1 & cr1 & _ & Hu1 & Hrow1).
  { rewrite Hid1, Hk1. simpl. lia. }
  destruct (update_or_create_key _ _ _ _ _ _ Hu1)
    as [(_ & -> & Hf1)|(a & Hf & _)];
    [|rewrite Hid1, Hk1 in Hf; discriminate].
  rewrite Hid1 in Hf1.
  set (s1' := process_row (make_context p m pk) n1 r1 s1) in *.
  destruct (process_row_step p m pk n1 r1 s1) as (_ & Hc1' & _).
  fold s1' in Hc1'. simpl in Hc1'.
  (* the rows between the two *)
  set (s2 := process_rows (make_context p m pk) (S n1) l2 s1').
  assert (Hk2 : length (assets_with_key (p, aid) (assets (st_db s2))) = 1).
  { unfold s2. apply process_rows_key_one. rewrite Hrow1. simpl.
    rewrite Hf1. reflexivity. }
  destruct (process_rows_results p m pk l2 (S n1) s1') as (es2 & Ha2 & Hc2).
  fold s2 in Ha2, Hc2.
  (* the second row updates it *)
  set (n2 := S n1 + length l2).
  destruct (process_row_valid p m pk n2 r2 s2 flds2 Hv2) as
    (st2a & t2 & table2 & cr2 & Hres2 & Hu2 & Hrow2).
  { rewrite Hid2, Hk2. lia. }
  destruct (update_or_create_key _ _ _ _ _ _ Hu2)
    as [(Hf & _ & _)|(a0 & _ & -> & Hf2)];
    [rewrite Hid2 in Hf; rewrite Hf in Hk2; discriminate|].
  rewrite Hid2 in Hf2.
  set (s2' := process_row (make_context p m pk) n2 r2 s2) in *.
  assert (Hty : lower (at_name t2) = lower (f_type_name flds2)).
  { destruct (resolve_asset_type_frame (f_type_name flds2) s2)
      as (st' & t' & Hres' & _ & _ & _ & Hc).
    rewrite Hres2 in Hres'. injection Hres' as _ <-.
    apply Hc, Hc2, Hc1', Hc1, cache_ok_build. }
  (* the rows after the two *)
  set (s3 := process_rows (make_context p m pk) (S n2) l3 s2').
  assert (Hk3 : assets_with_key (p, aid) (assets (st_db s3))
                = [apply_defaults (defaults_of p m pk r2 t2 flds2) a0]).
  { unfold s3. rewrite process_rows_key_frame by exact Hl3.
    rewrite Hrow2. simpl. exact Hf2. }
  destruct (process_rows_results p m pk l3 (S n2) s2') as (es3 & Ha3 & _).
  fold s3 in Ha3.
  assert (Hend : loop_end db p f cm fn = s3).
  { unfold loop_end. rewrite Hrows.
    rewrite process_rows_app, process_rows_cons.
    rewrite process_rows_app, process_rows_cons. reflexivity. }
  exists (st_results s3), (ImportBatch_save_count pk
            (created (st_results s3) + updated (st_results s3)) (st_db s3)),
    es1, es2, es3, (apply_defaults (defaults_of p m pk r2 t2 flds2) a0).
  split.
  { rewrite (import_returns db p f cm fn Hok), Hend. reflexivity. }
  split.
  { rewrite Ha3. rewrite Hrow2 at 1. simpl. rewrite Ha2.
    rewrite Hrow1 at 1. simpl. rewrite Ha1.
    rewrite <- !app_assoc. reflexivity. }
  pose proof (results_counted db p f cm fn) as Hcount.
  rewrite Hend in Hcount. simpl in Hcount.
  split; [apply Hcount|]. split; [apply Hcount|].
  split; [exact Hk3|].
  simpl. repeat split; auto.
Qed.

End ImporterFacts.

(** * The properties on the sample files *)

Section ImporterScenarios.

Import Py CsvImporter CsvUpload Notions Samples.
Local Open Scope list_scope.

(** The repository's [test_basic_import] and [test_creates_import_batch]. *)
Example basic_import :
  exists db',
    import_assets_from_csv empty_db 1 basic_file None (Some "myfile.csv")
    = Returns {| created := 2; updated := 0; errors := [];
                 r_assets :=
                   [{| e_asset_id := "A1"; e_created := true;
                       e_x := FDec false 1005 (-1); e_y := FDec false 2003 (-1) |};
                    {| e_asset_id := "A2"; e_created := true;
                       e_x := FDec false 1010 (-1); e_y := FDec false 2010 (-1) |}] |}
        db'
    /\ import_batches db'
       = [{| ib_project := 1; ib_filename := "myfile.csv"; ib_asset_count := 2 |}]
    /\ project_asset_count 1 db' = 2.
Proof. eexists. split; [vm_compute; reflexivity|]. split; reflexivity. Qed.

Lemma missing_column_rejected_witness :
  exists msg,
    import_assets_from_csv empty_db 1 only_col_file None None
    = Propagates (ValueError msg) empty_db.
Proof.
  apply (missing_column_rejected empty_db 1 only_col_file None None
           ["only_col"] "x").
  - reflexivity.
  - refine (bool_decide_unpack _ _). vm_compute. exact I.
  - refine (bool_decide_unpack _ _). vm_compute. exact I.
Defined.

(** An empty file has no header at all: the membership test raises
    [TypeError], again before anything is written. *)
Example empty_file_rejected :
  import_assets_from_csv empty_db 1 {| records := []; file_name := None |}
    None None
  = Propagates (TypeError "argument of type 'NoneType' is not iterable") empty_db.
Proof. reflexivity. Qed.

(** C2, as stated, fails: a row whose x is not a number gets no error
    about its coordinates when its asset id is empty; the check of the
    asset id comes first and is the one recorded. *)
Lemma bad_x_without_id_reports_missing_id :
  DictReader_rows no_id_bad_x_file
  = [DictReader_row header [""; "T"; "abc"; "1"; ""]]
  /\ float "abc" = None
  /\ returned_results
       (import_assets_from_csv empty_db 1 no_id_bad_x_file None None)
     = Some {| created := 0; updated := 0;
               errors := ["Row 2: Missing asset_id (column 'asset_id')"];
               r_assets := [] |}.
Proof. split; [|split]; vm_compute; reflexivity. Qed.

Lemma invalid_coordinates_recorded_witness :
  exists res db',
    import_assets_from_csv empty_db 1 coords_file None None = Returns res db'
    /\ "Row 3: Invalid coordinates (x=abc, y=def)" ∈ errors res.
Proof.
  destruct (invalid_coordinates_recorded empty_db 1 coords_file None None
              [DictReader_row header ok_record]
              (DictReader_row header bad_record) []
              "BAD" "T" "abc" "def")
    as (res & db' & Hret & Hin & _).
  - vm_compute. reflexivity.
  - vm_compute. reflexivity.
  - vm_compute. reflexivity.
  - vm_compute. reflexivity.
  - vm_compute. reflexivity.
  - vm_compute. reflexivity.
  - vm_compute. reflexivity.
  - discriminate.
  - discriminate.
  - left. vm_compute. reflexivity.
  - exists res, db'. split; [exact Hret|exact Hin].
Defined.

(** [float] accepts the texts of infinity and NaN, so such a row is not
    an invalid-coordinates row for the importer: its asset is created. *)
Example non_finite_coordinates_accepted :
  float "inf" = Some (FInf false) /\ float "nan" = Some FNan
  /\ isfinite (FInf false) = false /\ isfinite FNan = false
  /\ returned_results
       (import_assets_from_csv empty_db 1 non_finite_file None None)
     = Some {| created := 1; updated := 0; errors := [];
               r_assets := [{| e_asset_id := "I1"; e_created := true;
                               e_x := FInf false; e_y := FNan |}] |}.
Proof. repeat split; vm_compute; reflexivity. Qed.

(** C3. The function has no parameter for a fixed asset type, and the
    [asset_type] role is always required: on the file and mapping of
    the repository's [test_fixed_asset_type_skips_column_validation] the
    header check raises and nothing is imported. *)
Theorem fixed_asset_type_not_supported :
  accepts_keyword "fixed_asset_type" = false
  /\ import_assets_from_csv empty_db 1 fixed_type_file
       (Some fixed_type_mapping) None
     = Propagates
         (ValueError "Missing columns in CSV: asset_type (mapped to 'asset_type')")
         empty_db.
Proof. split; vm_compute; reflexivity. Qed.





Lemma batch_count_is_created_plus_updated_witness :
  import_batches
    (final_db (import_assets_from_csv empty_db 1 coords_file None None))
  = [{| ib_project := 1; ib_filename := "test.csv"; ib_asset_count := 1 |}].
Proof.
  destruct (batch_count_is_created_plus_updated empty_db 1 coords_file None None
              _ _ eq_refl) as [_ H].
  exact H.
Defined.

(** C8, as stated, fails: when the project already has the asset, the
    first of two rows with its id is counted as updated as well. *)
Lemma same_id_twice_on_existing_asset :
  assets_with_key (1%Z, "A") (assets db_with_A) <> []
  /\ returned_results
       (import_assets_from_csv db_with_A 1 duplicate_file None None)
     = Some {| created := 0; updated := 2; errors := [];
               r_assets :=
                 [{| e_asset_id := "A"; e_created := false;
                     e_x := FDec false 1 0; e_y := FDec false 2 0 |};
                  {| e_asset_id := "A"; e_created := false;
                     e_x := FDec false 10 0; e_y := FDec false 20 0 |}] |}.
Proof. split; [vm_compute; discriminate|vm_compute; reflexivity]. Qed.

Lemma duplicate_rows_in_one_call_witness :
  exists res db' a,
    import_assets_from_csv empty_db 1 duplicate_file None None = Returns res db'
    /\ e_created <$> r_assets res = [true; false]
    /\ created res = 1 /\ updated res = 1
    /\ assets_with_key (1%Z, "A") (assets db') = [a]
    /\ a_original_x a = FDec false 10 0 /\ a_original_y a = FDec false 20 0
    /\ a_name a = "v2"
    /\ lower (at_name (a_asset_type a)) = "valve".
Proof.
  destruct (duplicate_rows_in_one_call empty_db 1 duplicate_file None None
              [] (DictReader_row header first_record)
              [] (DictReader_row header second_record) []
              {| f_asset_id := "A"; f_type_name := "Gate";
                 f_x := FDec false 1 0; f_y := FDec false 2 0; f_name := "v1" |}
              {| f_asset_id := "A"; f_type_name := "Valve";
                 f_x := FDec false 10 0; f_y := FDec false 20 0; f_name := "v2" |}
              "A")
    as (res & db' & es1 & es2 & es3 & a & Hret & Hent & Hc & Hu & Hk
        & Hx & Hy & Hn & Ht & _).
  - vm_compute. reflexivity.
  - vm_compute. reflexivity.
  - vm_compute. reflexivity.
  - vm_compute. reflexivity.
  - vm_compute. reflexivity.
  - vm_compute. reflexivity.
  - reflexivity.
  - reflexivity.
  - reflexivity.
  - apply Forall_nil_2.
  - apply Forall_nil_2.
  - exists res, db', a. split; [exact Hret|].
    assert (Hres : returned_results
              (import_assets_from_csv empty_db 1 duplicate_file None None)
            = Some res) by (rewrite Hret; reflexivity).
    vm_compute in Hres. injection Hres as <-.
    split; [reflexivity|]. split; [reflexivity|]. split; [reflexivity|].
    split; [exact Hk|]. split; [exact Hx|]. split; [exact Hy|].
    split; [exact Hn|exact Ht].
Defined.

Lemma all_rows_failing_still_commits_witness :
  exists res db',
    import_upload empty_db 1 (complete failing_file) None None
    = CallReturns res db'
    /\ created res = 0 /\ updated res = 0
    /\ errors res
       = ["Row 2: Missing asset_id (column 'asset_id')";
          "Row 3: Missing asset_type (column 'asset_type')";
          "Row 4: Invalid coordinates (x=abc, y=2)"]
    /\ import_batches db'
       = [{| ib_project := 1; ib_filename := "test.csv"; ib_asset_count := 0 |}]
    /\ assets db' = [].
Proof.
  destruct (all_rows_failing_still_commits empty_db 1 (complete failing_file)
              None None) as [H _].
  - reflexivity.
  - reflexivity.
  - vm_compute. reflexivity.
  - vm_compute. reflexivity.
  - refine (bool_decide_unpack _ _). vm_compute. exact I.
  - destruct H as (res & db' & msgs & Hret & Hc & Hu & _ & _ & _ & _ & Hb & Ha & _).
    exists res, db'. split; [exact Hret|].
    split; [exact Hc|]. split; [exact Hu|].
    split; [|split; [exact Hb|exact Ha]].
    assert (Hres : import_upload empty_db 1 (complete failing_file) None None
                   = CallReturns res db') by exact Hret.
    vm_compute in Hres. injection Hres as <- _. reflexivity.
Defined.

End ImporterScenarios.

(** * Further properties of the validators and of the test helpers *)

Section ValidatorExtras.

Import Validators TestHelpers Notions.
Local Open Scope list_scope.

Lemma pdf_call_without_magic (v : PDFFileValidator) (magic : magic_lib)
    (f : UploadedFile) :
  PDFFileValidator_call v magic f = PDFFileValidator_call v None f.
Proof.
  unfold PDFFileValidator_call.
  destruct (pdf_max_size v <? size f)%Z; [reflexivity|].
  destruct (Py.endswith (Py.lower (name f)) ".pdf"); [|reflexivity]. simpl.
  destruct (Py.startswith (read_header f) pdf_magic); [|reflexivity]. simpl.
  destruct magic as [from_buffer|]; [|reflexivity].
  destruct (from_buffer (read_header f)) as [mime|]; [|reflexivity].
  destruct (bool_decide (mime ∈ pdf_allowed_mime_types)); reflexivity.
Qed.

(** X1. python-magic has no say in the PDF validator: whatever the
    library answers, or whether it is there at all, the outcome is the
    one of the size, extension and header checks, because a rejection by
    python-magic is raised and caught inside the same [try]. *)
Theorem pdf_outcome_ignores_magic (v : PDFFileValidator) (magic : magic_lib)
    (f : UploadedFile) :
  PDFFileValidator_call v magic f = PDFFileValidator_call v None f.
Proof. apply pdf_call_without_magic. Qed.

(** X2. The PDF validator accepts a file exactly when its size is within
    the limit, its lower-cased name ends in [.pdf] and its header begins
    with [%PDF-].  Within the size limit a wrong extension is what is
    reported, whatever the content, and the content only when the
    extension is right. *)
Theorem pdf_accepted_iff (v : PDFFileValidator) (magic : magic_lib)
    (f : UploadedFile) :
  (PDFFileValidator_call v magic f = Passes
   <-> (size f <= pdf_max_size v)%Z
       /\ Py.endswith (Py.lower (name f)) ".pdf" = true
       /\ Py.startswith (read_header f) pdf_magic = true)
  /\ ((size f <= pdf_max_size v)%Z ->
      Py.endswith (Py.lower (name f)) ".pdf" = false ->
      PDFFileValidator_call v magic f = Raises MustHavePdfExtension)
  /\ ((size f <= pdf_max_size v)%Z ->
      Py.endswith (Py.lower (name f)) ".pdf" = true ->
      Py.startswith (read_header f) pdf_magic = false ->
      PDFFileValidator_call v magic f = Raises InvalidPdfContent).
Proof.
  rewrite pdf_call_without_magic. unfold PDFFileValidator_call.
  destruct (Z.ltb_spec (pdf_max_size v) (size f)) as [Hlt|Hle].
  - split; [|split]; try (intros; lia).
    split; [discriminate|]. intros [H _]. lia.
  - destruct (Py.endswith (Py.lower (name f)) ".pdf"); simpl.
    + destruct (Py.startswith (read_header f) pdf_magic); simpl.
      * split; [|split]; try discriminate; auto. split; auto.
      * split; [|split]; try discriminate; auto.
        split; [discriminate|]. intros (_ & _ & H). discriminate.
    + split; [|split]; try discriminate; auto.
      split; [discriminate|]. intros (_ & H & _). discriminate.
Qed.


Lemma image_call_passes_iff (v : ImageFileValidator) (mg : magic_lib)
    (f : UploadedFile) :
  ImageFileValidator_call v mg f = Passes
  <-> (size f <= image_max_size v)%Z
      /\ file_ext (name f) ∈ allowed_extensions
      /\ (magic_accepts_image mg (read_header f) = true
          \/ has_image_signature (read_header f) = true).
Proof.
  { unfold ImageFileValidator_call, basic_header_checks, magic_accepts_image,
      has_image_signature.
    destruct (Z.ltb_spec (image_max_size v) (size f)) as [Hlt|Hle].
    { split; [discriminate|]. intros [H _]. lia. }
    destruct (decide (file_ext (name f) ∈ allowed_extensions)) as [Hext|Hext].
    2:{ rewrite bool_decide_eq_false_2 by exact Hext. simpl.
        split; [discriminate|]. intros (_ & H & _). contradiction. }
    rewrite bool_decide_eq_true_2 by exact Hext. simpl.
    destruct (is_png (read_header f) || is_jpeg (read_header f)
              || is_gif (read_header f)) eqn:Hsig; simpl.
    - split; [auto|]. intros _.
      destruct mg as [fb|]; [|reflexivity].
      destruct (fb (read_header f)) as [mime|]; [|reflexivity].
      destruct (bool_decide (mime ∈ image_allowed_mime_types)); reflexivity.
    - destruct mg as [fb|].
      + destruct (fb (read_header f)) as [mime|].
        * destruct (bool_decide (mime ∈ image_allowed_mime_types)).
          -- split; auto.
          -- split; [discriminate|]. intros (_ & _ & [H|H]); discriminate.
        * split; [discriminate|]. intros (_ & _ & [H|H]); discriminate.
      + split; [discriminate|]. intros (_ & _ & [H|H]); discriminate. }
Qed.

(** X3. The image validator accepts a file exactly when its size is
    within the limit, its extension is allowed and either python-magic
    names an allowed image type or the header begins with a PNG, JPEG or
    GIF signature.  So python-magic only adds acceptances: what passes
    without it passes with it, whatever it answers. *)
Theorem image_accepted_iff (v : ImageFileValidator) (magic : magic_lib)
    (f : UploadedFile) :
  (ImageFileValidator_call v magic f = Passes
   <-> (size f <= image_max_size v)%Z
       /\ file_ext (name f) ∈ allowed_extensions
       /\ (magic_accepts_image magic (read_header f) = true
           \/ has_image_signature (read_header f) = true))
  /\ (ImageFileValidator_call v None f = Passes ->
      ImageFileValidator_call v magic f = Passes).
Proof.
  split; [apply image_call_passes_iff|].
  intros H. apply image_call_passes_iff.
  apply image_call_passes_iff in H as (Hs & He & [Hm|Hh]).
  - discriminate.
  - auto.
Qed.

Lemma lower_char_idempotent (c : ascii) :
  Py.lower_char (Py.lower_char c) = Py.lower_char c.
Proof. destruct c as [[] [] [] [] [] [] [] []]; reflexivity. Qed.

Lemma lower_idempotent (s : string) : Py.lower (Py.lower s) = Py.lower s.
Proof.
  induction s as [|c s IH]; [reflexivity|].
  cbn [Py.lower]. rewrite lower_char_idempotent, IH. reflexivity.
Qed.

Lemma dot_lower_char (c : ascii) :
  Ascii.eqb "." (Py.lower_char c) = Ascii.eqb "." c.
Proof. destruct c as [[] [] [] [] [] [] [] []]; reflexivity. Qed.

Lemma contains_dot_lower (s : string) :
  Py.contains_char "." (Py.lower s) = Py.contains_char "." s.
Proof.
  induction s as [|c s IH]; [reflexivity|].
  cbn [Py.lower Py.contains_char]. rewrite dot_lower_char, IH. reflexivity.
Qed.

Lemma file_ext_by_lower (s : string) : file_ext s = file_ext (Py.lower s).
Proof.
  unfold file_ext. rewrite contains_dot_lower, lower_idempotent. reflexivity.
Qed.

(** X4. Both validators look at the name of a file only through its
    lower-cased form: two uploads whose names differ in case only, with
    the same size and content, get the same outcome. *)
Theorem validators_ignore_name_case (pv : PDFFileValidator)
    (iv : ImageFileValidator) (magic : magic_lib) (f g : UploadedFile) :
  Py.lower (name f) = Py.lower (name g) ->
  size f = size g -> content f = content g ->
  PDFFileValidator_call pv magic f = PDFFileValidator_call pv magic g
  /\ ImageFileValidator_call iv magic f = ImageFileValidator_call iv magic g.
Proof.
  intros Hn Hs Hc.
  unfold PDFFileValidator_call, ImageFileValidator_call, read_header.
  rewrite (file_ext_by_lower (name f)), (file_ext_by_lower (name g)).
  rewrite Hn, Hs, Hc. split; reflexivity.
Qed.

Lemma pad_content_length (requested : option Z) (data : list byte) :
  Z.of_nat (length (pad_content requested data))
  = helper_size (Z.of_nat (length data)) requested.
Proof.
  unfold pad_content, helper_size. destruct requested as [n|]; [|reflexivity].
  destruct (Z.eqb_spec n 0) as [->|Hn]; simpl; [lia|].
  destruct (Z.ltb_spec (Z.of_nat (length data)) n) as [Hlt|Hge]; [|lia].
  rewrite length_app, length_replicate. lia.
Qed.

Lemma pad_content_prefix (requested : option Z) (data : list byte) :
  data `prefix_of` pad_content requested data.
Proof.
  unfold pad_content. destruct requested as [n|]; [|reflexivity].
  destruct (negb (n =? 0)%Z && (Z.of_nat (length data) <? n)%Z);
    [apply prefix_app_r|]; reflexivity.
Qed.

Lemma startswith_prefix (b b' pre : list byte) :
  Py.startswith b pre = true -> b `prefix_of` b' -> Py.startswith b' pre = true.
Proof.
  revert b b'. induction pre as [|p pre IH]; intros b b' H Hp;
    [destruct b'; reflexivity|].
  destruct b as [|x b]; [discriminate|]. simpl in H.
  apply andb_prop in H as [Hx Hr].
  destruct Hp as [k ->]. simpl. rewrite Hx. simpl.
  apply (IH b); [exact Hr|]. apply prefix_app_r. reflexivity.
Qed.

Lemma header_keeps_short_prefix (base data : list byte) :
  length base <= 2048 -> base `prefix_of` data -> base `prefix_of` take 2048 data.
Proof.
  intros Hl [k ->]. rewrite take_app, (take_ge base) by exact Hl.
  apply prefix_app_r. reflexivity.
Qed.

(** X5. The file helpers of the tests: the helpers give a file the
    requested size when that exceeds the base content (29 bytes for the
    PDF, 58 for the PNG), and such a file passes a validator exactly up
    to the validator's limit, the only possible error being the size. *)
Theorem helper_files_valid_up_to_limit (pv : PDFFileValidator)
    (iv : ImageFileValidator) (magic : magic_lib) (requested : option Z) :
  let pdf := make_pdf_file "test.pdf" requested in
  let png := make_png_file "test.png" requested in
  size pdf = helper_size 29 requested
  /\ size png = helper_size 58 requested
  /\ PDFFileValidator_call pv magic pdf
     = (if (pdf_max_size pv <? size pdf)%Z
        then Raises (FileSizeExceeds (size pdf) (pdf_max_size pv)) else Passes)
  /\ ImageFileValidator_call iv magic png
     = (if (image_max_size iv <? size png)%Z
        then Raises (FileSizeExceeds (size png) (image_max_size iv))
        else Passes).
Proof.
  intros pdf png.
  split; [apply (pad_content_length requested pdf_content)|].
  split; [apply (pad_content_length requested png_content)|].
  split.
  - rewrite pdf_call_without_magic. unfold PDFFileValidator_call.
    destruct (pdf_max_size pv <? size pdf)%Z; [reflexivity|].
    assert (H : Py.startswith (read_header pdf) pdf_magic = true).
    { apply (startswith_prefix pdf_content); [reflexivity|].
      apply header_keeps_short_prefix; [vm_compute; lia|].
      apply pad_content_prefix. }
    rewrite H. reflexivity.
  - destruct (image_max_size iv <? size png)%Z eqn:Hlt.
    + unfold ImageFileValidator_call. rewrite Hlt. reflexivity.
    + apply Z.ltb_ge in Hlt.
      apply image_call_passes_iff. split; [exact Hlt|]. split.
      * vm_compute. set_solver.
      * right. unfold has_image_signature, is_png.
        assert (H : Py.startswith (read_header png) png_magic = true).
        { apply (startswith_prefix png_content); [reflexivity|].
          apply header_keeps_short_prefix; [vm_compute; lia|].
          apply pad_content_prefix. }
        rewrite H. reflexivity.
Qed.

End ValidatorExtras.

(** * Further properties of the header check and of the mapping *)

Section HeaderExtras.

Import Py CsvImporter CsvUpload Notions.
Local Open Scope list_scope.

Lemma falsy_iff (s : string) : falsy s = true <-> s = "".
Proof. destruct s; simpl; split; congruence. Qed.

Lemma filter_none {A} (P : A -> Prop) `{forall x, Decision (P x)} (l : list A) :
  Forall (fun x => ~ P x) l -> filter P l = [].
Proof.
  induction 1 as [|x l Hx _ IH]; [reflexivity|].
  rewrite filter_cons_False by exact Hx. exact IH.
Qed.

Lemma find_missing_with_header fns m roles :
  find_missing (Some fns) m roles
  = inr (missing_entry m <$> filter (missing_role m fns) roles).
Proof.
  induction roles as [|role roles IH]; [reflexivity|].
  cbn [find_missing]. rewrite IH, filter_cons. unfold missing_append.
  destruct (falsy (mapping_get m role)) eqn:Hf.
  - apply falsy_iff in Hf.
    rewrite decide_True by (left; exact Hf). reflexivity.
  - destruct (decide (mapping_get m role ∈ fns)) as [Hin|Hni].
    + rewrite decide_False; [reflexivity|].
      intros [He|Hn]; [|contradiction].
      apply falsy_iff in He. congruence.
    + rewrite decide_True by (right; exact Hni). reflexivity.
Qed.

Lemma find_missing_without_header m role roles :
  find_missing None m (role :: roles) <> inr [].
Proof.
  cbn [find_missing]. destruct (falsy (mapping_get m role)); [|discriminate].
  unfold missing_append. destruct (find_missing None m roles); discriminate.
Qed.

Lemma header_ok_iff f cm :
  header_ok f cm
  <-> exists fns,
        fieldnames f = Some fns
        /\ forall role, role ∈ required_roles ->
             mapping_get (merge_mapping cm) role <> ""
             /\ mapping_get (merge_mapping cm) role ∈ fns.
Proof.
  unfold header_ok. destruct (fieldnames f) as [fns|].
  - rewrite find_missing_with_header. split.
    + intros H. exists fns. split; [reflexivity|]. intros role Hrole.
      injection H as H. apply fmap_nil_inv in H.
      assert (Hn : role ∉ filter (missing_role (merge_mapping cm) fns)
                     required_roles) by (rewrite H; apply not_elem_of_nil).
      rewrite list_elem_of_filter in Hn. unfold missing_role in Hn.
      split.
      * intros He. apply Hn. auto.
      * destruct (decide (mapping_get (merge_mapping cm) role ∈ fns)); [auto|].
        exfalso. apply Hn. auto.
    + intros (fns' & Heq & H). injection Heq as <-.
      f_equal. replace (filter _ required_roles) with (@nil string);
        [reflexivity|].
      symmetry. apply filter_none, Forall_forall. intros role Hrole.
      destruct (H role Hrole) as [Hne Hin]. intros [He|Hn]; contradiction.
  - split.
    + intros H. exfalso. exact (find_missing_without_header _ _ _ H).
    + intros (fns & Heq & _). discriminate.
Qed.

(** X6. A call returns, rather than raises, exactly when the content
    decodes, the reader reaches the end of the content, the file has a
    header, and every required role is mapped to a non-empty column name
    that the header has. *)
Theorem import_returns_iff_columns_present db p u cm fn :
  (exists res db', import_upload db p u cm fn = CallReturns res db')
  <-> decodes u = true
      /\ stops u = StopIteration
      /\ exists fns,
           fieldnames (yielded u) = Some fns
           /\ forall role, role ∈ required_roles ->
                mapping_get (merge_mapping cm) role <> ""
                /\ mapping_get (merge_mapping cm) role ∈ fns.
Proof.
  rewrite <- header_ok_iff. split.
  - intros (res & db' & H).
    apply import_upload_returns in H as (Hd & Hs & H).
    split; [exact Hd|]. split; [exact Hs|].
    unfold header_ok. unfold import_assets_from_csv in H.
    destruct (find_missing (fieldnames (yielded u)) (merge_mapping cm)
                required_roles)
      as [e|[|entry missing]]; [discriminate|reflexivity|discriminate].
  - intros (Hd & Hs & Hok). eexists _, _.
    rewrite (import_upload_complete db p u cm fn Hd Hs).
    rewrite (import_returns db p (yielded u) cm fn Hok). reflexivity.
Qed.


(** X7. When the file has a header and some required column is missing,
    the message of the [ValueError] lists every missing role, in the
    order asset_id, asset_type, x, y, each with the column it is mapped
    to, and the database is handed back unchanged. *)
Theorem missing_columns_all_listed db p f cm fn fns :
  fieldnames f = Some fns ->
  filter (missing_role (merge_mapping cm) fns) required_roles <> [] ->
  import_assets_from_csv db p f cm fn
  = Propagates
      (ValueError
         ("Missing columns in CSV: "
          ++ join_comma
               (missing_entry (merge_mapping cm)
                  <$> filter (missing_role (merge_mapping cm) fns)
                        required_roles))%string)
      db.
Proof.
  intros Hf Hne. unfold import_assets_from_csv.
  rewrite Hf, find_missing_with_header.
  destruct (filter (missing_role (merge_mapping cm) fns) required_roles)
    as [|role roles]; [contradiction|reflexivity].
Qed.

(** X8. The caller's mapping overrides the default one role by role: a
    role it names gets its column, any other role keeps the default
    column; an empty mapping is the same as none. *)
Theorem mapping_overrides_role_by_role db p f fn
    (overrides : gmap string string) (role : string) :
  mapping_get (merge_mapping (Some overrides)) role
  = default (mapping_get DEFAULT_MAPPING role) (overrides !! role)
  /\ mapping_get (merge_mapping None) role = mapping_get DEFAULT_MAPPING role
  /\ import_assets_from_csv db p f (Some ∅) fn
     = import_assets_from_csv db p f None fn.
Proof.
  split; [|split].
  - unfold mapping_get, merge_mapping. simpl.
    rewrite lookup_union. destruct (overrides !! role) as [c|] eqn:Ho.
    + simpl. destruct (DEFAULT_MAPPING !! role); reflexivity.
    + simpl. destruct (DEFAULT_MAPPING !! role); reflexivity.
  - unfold mapping_get, merge_mapping. simpl.
    rewrite (left_id_L ∅ (∪)). reflexivity.
  - unfold import_assets_from_csv, merge_mapping. simpl. reflexivity.
Qed.

End HeaderExtras.

(** * Further properties of the reader, the metadata and the type cache *)

Section ReaderExtras.

Import Py CsvImporter Notions.
Local Open Scope list_scope.

Lemma fold_cells_lookup_ne (l : list (string * string))
    (d : gmap string (option string)) k :
  k ∉ l.*1 ->
  foldl (fun d kv => <[kv.1 := Some kv.2]> d) d l !! k = d !! k.
Proof.
  revert d. induction l as [|[k' v'] l IH]; intros d Hk; [reflexivity|].
  rewrite fmap_cons, not_elem_of_cons in Hk. destruct Hk as [Hne Hk].
  simpl. rewrite IH by exact Hk. apply lookup_insert_ne. simpl in Hne. congruence.
Qed.

Lemma fold_cells_lookup (l : list (string * string))
    (d : gmap string (option string)) k v :
  NoDup l.*1 -> (k, v) ∈ l ->
  foldl (fun d kv => <[kv.1 := Some kv.2]> d) d l !! k = Some (Some v).
Proof.
  revert d. induction l as [|[k' v'] l IH]; intros d Hnd Hin; [inversion Hin|].
  rewrite fmap_cons in Hnd. apply NoDup_cons in Hnd as [Hni Hnd].
  apply elem_of_cons in Hin as [Heq|Hin].
  - injection Heq as -> ->. simpl. rewrite fold_cells_lookup_ne by exact Hni.
    apply lookup_insert_eq.
  - simpl. apply IH; assumption.
Qed.

Lemma fold_cells_none (l : list (string * string))
    (d : gmap string (option string)) k :
  foldl (fun d kv => <[kv.1 := Some kv.2]> d) d l !! k = None
  <-> d !! k = None /\ k ∉ l.*1.
Proof.
  revert d. induction l as [|[k' v'] l IH]; intros d.
  - simpl. split; [intros H; split; [exact H|apply not_elem_of_nil]|tauto].
  - simpl. rewrite IH, not_elem_of_cons. simpl.
    destruct (decide (k' = k)) as [->|Hne].
    + rewrite lookup_insert_eq. split; [intros [H _]; discriminate|].
      intros [_ [H _]]. contradiction.
    + rewrite lookup_insert_ne by exact Hne. split.
      * intros [H1 H2]. split; [exact H1|]. split; [congruence|exact H2].
      * intros [H1 [_ H2]]. auto.
Qed.

Lemma fold_blank_lookup_ne (keys : list string)
    (d : gmap string (option string)) k :
  k ∉ keys ->
  foldl (fun d key => <[key := None]> d) d keys !! k = d !! k.
Proof.
  revert d. induction keys as [|k' keys IH]; intros d Hk; [reflexivity|].
  apply not_elem_of_cons in Hk as [Hne Hk].
  simpl. rewrite IH by exact Hk. apply lookup_insert_ne. congruence.
Qed.

Lemma fold_blank_lookup (keys : list string)
    (d : gmap string (option string)) k :
  k ∈ keys ->
  foldl (fun d key => <[key := None]> d) d keys !! k = Some None.
Proof.
  revert d. induction keys as [|k' keys IH]; intros d Hk; [inversion Hk|].
  simpl. destruct (decide (k ∈ keys)) as [Hin|Hni]; [apply IH, Hin|].
  apply elem_of_cons in Hk as [->|Hk]; [|contradiction].
  rewrite fold_blank_lookup_ne by exact Hni. apply lookup_insert_eq.
Qed.

Lemma fold_blank_none (keys : list string)
    (d : gmap string (option string)) k :
  foldl (fun d key => <[key := None]> d) d keys !! k = None
  <-> d !! k = None /\ k ∉ keys.
Proof.
  split.
  - intros H. destruct (decide (k ∈ keys)) as [Hin|Hni].
    + rewrite fold_blank_lookup in H by exact Hin. discriminate.
    + rewrite fold_blank_lookup_ne in H by exact Hni. auto.
  - intros [H Hni]. rewrite fold_blank_lookup_ne by exact Hni. exact H.
Qed.

Lemma zip_keys (fns record : list string) :
  (zip fns record).*1 = take (length record) fns.
Proof.
  revert record. induction fns as [|k fns IH]; intros [|c record]; simpl;
    try reflexivity.
  rewrite IH. reflexivity.
Qed.

(** X10. A row of the reader has an entry for every header name and for
    no other name, and it keeps the cells beyond the header, if any,
    apart from them. *)
Theorem reader_row_has_every_header_column (fns record : list string) k :
  (cells (DictReader_row fns record) !! k = None <-> k ∉ fns)
  /\ rest (DictReader_row fns record)
     = (if decide (length fns < length record)
        then Some (drop (length fns) record) else None).
Proof.
  split.
  - unfold DictReader_row.
    destruct (decide (length fns < length record)) as [Hlt|Hge]; simpl.
    + rewrite fold_cells_none, zip_keys, take_ge by lia.
      rewrite lookup_empty. tauto.
    + rewrite fold_blank_none, fold_cells_none, zip_keys, lookup_empty.
      rewrite <- (take_drop (length record) fns) at 3.
      rewrite elem_of_app. tauto.
  - unfold DictReader_row.
    destruct (decide (length fns < length record)); reflexivity.
Qed.

Lemma zip_lookup_cell (fns record : list string) i k s :
  fns !! i = Some k -> record !! i = Some s -> (k, s) ∈ zip fns record.
Proof.
  intros Hk Hs. apply list_elem_of_lookup. exists i.
  apply lookup_zip_with_Some. exists k, s. auto.
Qed.

(** X9. With distinct header names, the cell a row holds under the i-th
    header name is the i-th cell of the record, and [None] when the
    record is too short to have one. *)
Theorem reader_row_cell_by_position (fns record : list string) i k :
  NoDup fns ->
  fns !! i = Some k ->
  row_get (DictReader_row fns record) k
  = match record !! i with
    | Some s => VStr s
    | None => VNone
    end.
Proof.
  intros Hnd Hk.
  rewrite <- (take_drop (length record) fns) in Hnd.
  apply NoDup_app in Hnd as (Hnd1 & Hdisj & _).
  unfold row_get, DictReader_row.
  destruct (record !! i) as [s|] eqn:Hs.
  - assert (Hin : (k, s) ∈ zip fns record) by (eapply zip_lookup_cell; eauto).
    assert (Hcell : foldl (fun d kv => <[kv.1 := Some kv.2]> d)
                      (∅ : gmap string (option string))
                      (zip fns record) !! k = Some (Some s)).
    { apply fold_cells_lookup; [rewrite zip_keys; exact Hnd1|exact Hin]. }
    destruct (decide (length fns < length record)); simpl.
    + rewrite Hcell. reflexivity.
    + rewrite fold_blank_lookup_ne, Hcell; [reflexivity|].
      apply Hdisj. apply list_elem_of_lookup. exists i.
      rewrite lookup_take_lt; [exact Hk|]. eapply lookup_lt_Some, Hs.
  - apply lookup_ge_None in Hs. apply lookup_lt_Some in Hk as Hlt.
    destruct (decide (length fns < length record)); [lia|]. simpl.
    rewrite fold_blank_lookup; [reflexivity|].
    apply list_elem_of_lookup. exists (i - length record).
    rewrite lookup_drop. replace (length record + (i - length record)) with i
      by lia. exact Hk.
Qed.

(** X11. The metadata of a row has the entry [k: v] exactly when no role
    is mapped to column [k] and the row holds the non-empty string [v]
    under [k]; the value is stored as it is, not stripped. *)
Theorem metadata_holds_unmapped_columns (c : Context) (row : Row) k v :
  md_columns (build_metadata c row) !! k = Some v
  <-> (k ∉ mapped_columns c) /\ cells row !! k = Some (Some v) /\ v <> "".
Proof.
  unfold build_metadata. simpl. rewrite lookup_omap_Some. split.
  - intros (o & Ho & Hf). apply map_lookup_filter_Some in Hf as [Hc Hk].
    simpl in Hk. destruct o as [s|]; [|discriminate].
    destruct s as [|a s]; simpl in Ho; [discriminate|].
    injection Ho as <-. split; [exact Hk|]. split; [exact Hc|discriminate].
  - intros (Hk & Hc & Hv). exists (Some v). split.
    + destruct v; [contradiction|reflexivity].
    + apply map_lookup_filter_Some. split; [exact Hc|exact Hk].
Qed.

(** X12. Asset types are looked up without regard to case: after a type
    name has been resolved, resolving a name that differs from it in
    case only yields the same type and changes nothing. *)
Theorem asset_type_lookup_ignores_case (tn tn' : string) st st1 t :
  lower tn' = lower tn ->
  resolve_asset_type tn st = (st1, inr t) ->
  resolve_asset_type tn' st1 = (st1, inr t).
Proof.
  intros Hl. unfold resolve_asset_type, bind, get_state.
  rewrite Hl.
  destruct (st_cache st !! lower tn) as [t0|] eqn:Hc.
  - unfold ret. intros H. injection H as <- <-. rewrite Hc. reflexivity.
  - unfold AssetType_create, bind, get_state, put_db, put_cache, ret. simpl.
    intros H. injection H as <- <-. simpl. rewrite lookup_insert_eq. reflexivity.
Qed.

End ReaderExtras.

(** * What every call keeps *)

Section InvariantExtras.

Import Py CsvImporter Notions.
Local Open Scope list_scope.

Lemma process_rows_invariant (I : LoopState -> Prop) c (rows : list Row) n st :
  (forall n row st, I st -> I (process_row c n row st)) ->
  I st -> I (process_rows c n rows st).
Proof.
  intros Hstep. revert n st. induction rows as [|row rows IH]; intros n st H;
    simpl; [exact H|].
  apply IH, Hstep, H.
Qed.

(** What one iteration does to the asset table and to [results]. *)
Lemma process_row_table p m pk n row st :
  let st' := process_row (make_context p m pk) n row st in
  (assets (st_db st') = assets (st_db st)
   /\ created (st_results st') = created (st_results st)
   /\ updated (st_results st') = updated (st_results st)
   /\ r_assets (st_results st') = r_assets (st_results st))
  \/ (exists aid d cr e,
        update_or_create p aid d (assets (st_db st))
        = inr (assets (st_db st'), cr)
        /\ d_import_batch d = pk
        /\ e_asset_id e = aid /\ e_created e = cr
        /\ st_results st' = add_asset e (st_results st)).
Proof.
  destruct (process_row_step p m pk n row st) as (_ & _ & Hcase).
  simpl in *.
  destruct Hcase as [(msg & Hr & Ha)|(flds & t & cr & _ & Hu & Hr & _)].
  - left. rewrite Hr, Ha. auto.
  - right. eexists _, _, cr, (entry_of flds cr).
    split; [exact Hu|]. auto.
Qed.

Lemma final_db_cases db p f cm fn :
  (header_ok f cm
   /\ final_db (import_assets_from_csv db p f cm fn)
      = ImportBatch_save_count (length (import_batches db))
          (created (st_results (loop_end db p f cm fn))
           + updated (st_results (loop_end db p f cm fn)))
          (st_db (loop_end db p f cm fn)))
  \/ final_db (import_assets_from_csv db p f cm fn) = db.
Proof.
  unfold header_ok, import_assets_from_csv.
  destruct (find_missing (fieldnames f) (merge_mapping cm) required_roles)
    as [e|[|entry missing]]; [right; reflexivity| |right; reflexivity].
  left. split; reflexivity.
Qed.

(** A property of the asset table that every iteration keeps is kept by
    the call. *)
Lemma import_keeps (Q : list Asset -> Prop) db p f cm fn :
  (forall n row st,
     Q (assets (st_db st)) ->
     Q (assets (st_db (process_row (loop_context db p cm) n row st)))) ->
  Q (assets db) ->
  Q (assets (final_db (import_assets_from_csv db p f cm fn))).
Proof.
  intros Hstep H0.
  destruct (final_db_cases db p f cm fn) as [[_ Hf]|Hf]; rewrite Hf;
    [|exact H0].
  simpl. unfold loop_end.
  apply (process_rows_invariant (fun st => Q (assets (st_db st))));
    [exact Hstep|exact H0].
Qed.

Lemma filter_fmap_fixed {A} (P : A -> Prop) `{forall x, Decision (P x)}
    (g : A -> A) (l : list A) :
  (forall a, P a -> g a = a) -> (forall a, ~ P a -> ~ P (g a)) ->
  filter P (g <$> l) = filter P l.
Proof.
  intros Hfix Hout. induction l as [|a l IH]; [reflexivity|].
  rewrite fmap_cons, !filter_cons.
  destruct (decide (P a)) as [Ha|Ha].
  - rewrite (Hfix a Ha), decide_True by exact Ha. rewrite IH. reflexivity.
  - rewrite decide_False by (apply Hout, Ha). exact IH.
Qed.

Lemma update_or_create_other_projects p aid d table table' cr :
  update_or_create p aid d table = inr (table', cr) ->
  filter (fun a => a_project a <> p) table'
  = filter (fun a => a_project a <> p) table.
Proof.
  intros H. pose proof (update_or_create_spec p aid d table) as Hs.
  rewrite H in Hs. inversion Hs; subst.
  - rewrite filter_app, filter_cons_False, filter_nil, app_nil_r;
      [reflexivity|]. simpl. auto.
  - apply filter_fmap_fixed.
    + intros b Hb. destruct (decide (asset_key b = (p, aid))) as [Hk|Hk];
        [|reflexivity].
      exfalso. apply Hb. unfold asset_key in Hk. congruence.
    + intros b Hb. destruct (decide (asset_key b = (p, aid))); exact Hb.
Qed.

(** X14. An import into a project leaves the assets of every other
    project as they are. *)
Theorem other_projects_untouched db p f cm fn :
  filter (fun a => a_project a <> p)
    (assets (final_db (import_assets_from_csv db p f cm fn)))
  = filter (fun a => a_project a <> p) (assets db).
Proof.
  apply (import_keeps
           (fun table => filter (fun a => a_project a <> p) table
                         = filter (fun a => a_project a <> p) (assets db)));
    [|reflexivity].
  intros n row st H.
  destruct (process_row_table p (merge_mapping cm) (length (import_batches db))
              n row st) as [(Ha & _)|(aid & d & cr & e & Hu & _)].
  - unfold loop_context. rewrite Ha. exact H.
  - unfold loop_context.
    rewrite (update_or_create_other_projects _ _ _ _ _ _ Hu). exact H.
Qed.

Lemma update_or_create_key_adjusted p aid d table table' cr :
  update_or_create p aid d table = inr (table', cr) ->
  key_adjusted <$> table'
  = if cr then (key_adjusted <$> table) ++ [((p, aid), None)]
    else key_adjusted <$> table.
Proof.
  intros H. pose proof (update_or_create_spec p aid d table) as Hs.
  rewrite H in Hs. inversion Hs; subst.
  - rewrite fmap_app. reflexivity.
  - clear. induction table as [|a table IH]; [reflexivity|].
    rewrite !fmap_cons, IH.
    destruct (decide (asset_key a = (p, aid))); reflexivity.
Qed.

Lemma update_or_create_unique p aid d table table' cr :
  update_or_create p aid d table = inr (table', cr) ->
  NoDup (asset_key <$> table) -> NoDup (asset_key <$> table').
Proof.
  intros Hu Hnd. rewrite (update_or_create_keys _ _ _ _ _ _ Hu).
  destruct (update_or_create_key _ _ _ _ _ _ Hu)
    as [(Hf & -> & _)|(a & _ & -> & _)]; [|exact Hnd].
  apply NoDup_app. split; [exact Hnd|]. split; [|apply NoDup_singleton].
  intros k Hin Hk. apply list_elem_of_singleton in Hk. subst k.
  apply assets_with_key_nil_iff in Hf. contradiction.
Qed.

(** X16. The uniqueness of [(project, asset_id)] in the asset table is
    kept by every call, whatever the rows hold. *)
Theorem unique_keys_kept db p f cm fn :
  unique_keys db ->
  unique_keys (final_db (import_assets_from_csv db p f cm fn)).
Proof.
  unfold unique_keys.
  apply (import_keeps (fun table => NoDup (asset_key <$> table))).
  intros n row st H.
  destruct (process_row_table p (merge_mapping cm) (length (import_batches db))
              n row st) as [(Ha & _)|(aid & d & cr & e & Hu & _)].
  - unfold loop_context. rewrite Ha. exact H.
  - unfold loop_context. eapply update_or_create_unique; eauto.
Qed.


Lemma returns_inv db p f cm fn res db' :
  import_assets_from_csv db p f cm fn = Returns res db' ->
  header_ok f cm
  /\ res = st_results (loop_end db p f cm fn)
  /\ db' = ImportBatch_save_count (length (import_batches db))
             (created res + updated res) (st_db (loop_end db p f cm fn)).
Proof.
  intros H.
  assert (Hok : header_ok f cm).
  { unfold header_ok. unfold import_assets_from_csv in H.
    destruct (find_missing (fieldnames f) (merge_mapping cm) required_roles)
      as [e|[|entry missing]]; [discriminate|reflexivity|discriminate]. }
  rewrite (import_returns db p f cm fn Hok) in H. injection H as <- <-.
  auto.
Qed.

(** X19. A call that returns deletes no asset, moves none and changes
    no key or adjusted position: the keys and adjusted positions
    afterwards are those from before, in place, followed by one new
    asset without adjusted position for every entry marked as created,
    in the order of the entries. *)
Theorem assets_kept_and_created_appended db p f cm fn res db' :
  import_assets_from_csv db p f cm fn = Returns res db' ->
  key_adjusted <$> assets db'
  = (key_adjusted <$> assets db) ++ created_keys p (r_assets res).
Proof.
  intros H. destruct (returns_inv _ _ _ _ _ _ _ H) as (_ & -> & ->).
  simpl. unfold loop_end.
  apply (process_rows_invariant
           (fun st => key_adjusted <$> assets (st_db st)
                      = (key_adjusted <$> assets db)
                        ++ created_keys p (r_assets (st_results st))));
    [|simpl; rewrite app_nil_r; reflexivity].
  intros n row st Hst.
  destruct (process_row_table p (merge_mapping cm) (length (import_batches db))
              n row st)
    as [(Ha & _ & _ & Hr)|(aid & d & cr & e & Hu & _ & Hid & Hcr & Hr)];
    unfold loop_context.
  - rewrite Ha, Hr. exact Hst.
  - rewrite (update_or_create_key_adjusted _ _ _ _ _ _ Hu), Hr, Hst. simpl.
    unfold created_keys. rewrite filter_app, fmap_app, filter_cons, filter_nil.
    rewrite Hcr. destruct cr.
    + rewrite decide_True by reflexivity. simpl. rewrite Hid, app_assoc.
      reflexivity.
    + rewrite decide_False by discriminate. simpl. rewrite app_nil_r.
      reflexivity.
Qed.

(** X15. A call that returns has made the asset table longer by exactly
    its [created] counter. *)
Theorem asset_table_grows_by_created db p f cm fn res db' :
  import_assets_from_csv db p f cm fn = Returns res db' ->
  length (assets db') = length (assets db) + created res.
Proof.
  intros H. destruct (returns_inv _ _ _ _ _ _ _ H) as (_ & -> & ->).
  simpl. unfold loop_end.
  apply (process_rows_invariant
           (fun st => length (assets (st_db st))
                      = length (assets db) + created (st_results st)));
    [|simpl; lia].
  intros n row st Hst.
  destruct (process_row_table p (merge_mapping cm) (length (import_batches db))
              n row st)
    as [(Ha & Hc & _)|(aid & d & cr & e & Hu & _ & _ & Hcr & Hr)];
    unfold loop_context.
  - rewrite Ha, Hc. exact Hst.
  - rewrite Hr. simpl. rewrite Hcr.
    pose proof (update_or_create_spec p aid d (assets (st_db st))) as Hs.
    rewrite Hu in Hs. inversion Hs as [Hf Heq|a Hf Heq|]; subst cr.
    + rewrite length_app. simpl. lia.
    + rewrite length_fmap. lia.
Qed.

Lemma recorded_lengths n (outs : list (string + AssetEntry)) :
  length (recorded_errors n outs) + length (recorded_entries outs)
  = length outs.
Proof.
  revert n. induction outs as [|[msg|e] outs IH]; intros n; simpl;
    [reflexivity| |]; rewrite <- (IH (S n)); lia.
Qed.

Lemma counts_partition (l : list AssetEntry) :
  count_created l + count_updated l = length l.
Proof.
  induction l as [|e l IH]; [reflexivity|].
  rewrite count_created_cons, count_updated_cons. simpl.
  destruct (e_created e); lia.
Qed.

(** X17. In the result of a call every data row is counted once: the
    errors, the created and the updated add up to the number of data
    rows, and created plus updated is the number of entries in
    [assets]. *)
Theorem every_row_counted_once db p f cm fn res db' :
  import_assets_from_csv db p f cm fn = Returns res db' ->
  length (errors res) + created res + updated res
  = length (DictReader_rows f)
  /\ created res + updated res = length (r_assets res).
Proof.
  intros H. destruct (returns_inv _ _ _ _ _ _ _ H) as (_ & -> & _).
  destruct (process_rows_outcomes p (merge_mapping cm)
              (length (import_batches db)) (DictReader_rows f) 2
              (loop_start db p f fn))
    as (outs & Hlen & He & Ha & Hc & Hu & _).
  fold (loop_context db p cm) in He, Ha, Hc, Hu.
  fold (loop_end db p f cm fn) in He, Ha, Hc, Hu.
  simpl in He, Ha, Hc, Hu.
  rewrite He, Ha, Hc, Hu, <- Hlen, <- (recorded_lengths 2 outs).
  pose proof (counts_partition (recorded_entries outs)). lia.
Qed.

(** X18. Every asset that an entry of the result refers to belongs to
    the batch of the call, and that batch is in the batch table with the
    project of the call and the count of the result. *)
Theorem imported_assets_belong_to_the_batch db p f cm fn res db' e a :
  import_assets_from_csv db p f cm fn = Returns res db' ->
  e ∈ r_assets res ->
  a ∈ assets db' ->
  asset_key a = (p, e_asset_id e) ->
  a_import_batch a = Some (length (import_batches db))
  /\ exists b, import_batches db' !! length (import_batches db) = Some b
               /\ ib_project b = p
               /\ ib_asset_count b = created res + updated res.
Proof.
  intros H. destruct (returns_inv _ _ _ _ _ _ _ H) as (_ & Hres & ->).
  intros He Ha Hk. split.
  - revert e a He Ha Hk. rewrite Hres. simpl. unfold loop_end.
    apply (process_rows_invariant
             (fun st => forall e a,
                e ∈ r_assets (st_results st) -> a ∈ assets (st_db st) ->
                asset_key a = (p, e_asset_id e) ->
                a_import_batch a = Some (length (import_batches db))));
      [|intros e a He; inversion He].
    intros n row st Hst e a.
    destruct (process_row_table p (merge_mapping cm)
                (length (import_batches db)) n row st)
      as [(Ha & _ & _ & Hr)|(aid & d & cr & e0 & Hu & Hd & Hid & _ & Hr)];
      unfold loop_context.
    + rewrite Ha, Hr. apply Hst.
    + rewrite Hr. simpl. intros He Ha Hk.
      pose proof (update_or_create_spec p aid d (assets (st_db st))) as Hs.
      rewrite Hu in Hs. inversion Hs as [Hf Heq|a0 Hf Heq|]; subst cr.
      * rewrite <- Heq in Ha. apply elem_of_app in Ha as [Ha|Ha].
        -- apply elem_of_app in He as [He|He]; [eapply Hst; eauto|].
           apply list_elem_of_singleton in He. subst e. rewrite Hid in Hk.
           exfalso. apply assets_with_key_nil_iff in Hf. apply Hf.
           apply list_elem_of_fmap. exists a. auto.
        -- apply list_elem_of_singleton in Ha. subst a. simpl. rewrite Hd.
           reflexivity.
      * rewrite <- Heq in Ha. apply list_elem_of_fmap in Ha as (a1 & -> & Ha1).
        destruct (decide (asset_key a1 = (p, aid))) as [Hk1|Hk1].
        -- simpl. rewrite Hd. reflexivity.
        -- apply elem_of_app in He as [He|He]; [eapply Hst; eauto|].
           apply list_elem_of_singleton in He. subst e. rewrite Hid in Hk.
           contradiction.
  - destruct (process_rows_outcomes p (merge_mapping cm)
                (length (import_batches db)) (DictReader_rows f) 2
                (loop_start db p f fn)) as (outs & _ & _ & _ & _ & _ & Hb & _).
    fold (loop_context db p cm) in Hb. fold (loop_end db p f cm fn) in Hb.
    simpl in Hb. simpl. rewrite Hb, alter_last_batch.
    eexists. split; [apply list_lookup_middle; reflexivity|].
    simpl. auto.
Qed.


(** *** Asset types through the loop *)

Lemma resolve_asset_type_cases tn st st1 t :
  resolve_asset_type tn st = (st1, inr t) ->
  (asset_types (st_db st1) = asset_types (st_db st)
   /\ st_cache st1 = st_cache st)
  \/ (st_cache st !! lower tn = None
      /\ asset_types (st_db st1)
         = asset_types (st_db st) ++ [{| at_name := tn |}]
      /\ st_cache st1 = <[lower tn := {| at_name := tn |}]> (st_cache st)).
Proof.
  unfold resolve_asset_type, bind, get_state.
  destruct (st_cache st !! lower tn) as [t0|] eqn:Hc.
  - unfold ret. intros H. injection H as <- _. left. auto.
  - unfold AssetType_create, bind, get_state, put_db, put_cache, ret. simpl.
    intros H. injection H as <- _. right. simpl. auto.
Qed.

Lemma process_row_types p m pk n row st :
  let st' := process_row (make_context p m pk) n row st in
  (asset_types (st_db st') = asset_types (st_db st)
   /\ st_cache st' = st_cache st)
  \/ (exists tn,
        st_cache st !! lower tn = None
        /\ asset_types (st_db st')
           = asset_types (st_db st) ++ [{| at_name := tn |}]
        /\ st_cache st' = <[lower tn := {| at_name := tn |}]> (st_cache st)).
Proof.
  simpl. destruct (fails_validation m row) eqn:Hf.
  - destruct (process_row_fails p m pk n row st Hf) as [msg ->]. left. auto.
  - destruct (passes_validation_inv _ _ Hf)
      as (aid & tn & xs & ys & x & y & Hid & Hty & Hx & Hy & Hfid & Hfty
          & Hfx & Hfy).
    destruct (resolve_asset_type_frame tn st) as (st1 & t & Hres & _).
    rewrite (process_row_passes p m pk n row st _ _ _ _ _ _
               Hid Hty Hx Hy Hfid Hfty Hfx Hfy st1 t Hres).
    assert (Hst1 := resolve_asset_type_cases _ _ _ _ Hres).
    assert (Hgoal : forall st2,
              asset_types (st_db st2) = asset_types (st_db st1) ->
              st_cache st2 = st_cache st1 ->
              (asset_types (st_db st2) = asset_types (st_db st)
               /\ st_cache st2 = st_cache st)
              \/ (exists tn0,
                    st_cache st !! lower tn0 = None
                    /\ asset_types (st_db st2)
                       = asset_types (st_db st) ++ [{| at_name := tn0 |}]
                    /\ st_cache st2
                       = <[lower tn0 := {| at_name := tn0 |}]> (st_cache st))).
    { intros st2 -> ->. destruct Hst1 as [H|H]; [left; exact H|right].
      exists tn. exact H. }
    destruct (row_name m row) as [nm|]; [|apply Hgoal; reflexivity].
    destruct (update_or_create p aid _ (assets (st_db st1)))
      as [msg|[table cr]]; apply Hgoal; reflexivity.
Qed.

Lemma build_cache_keys (l : list AssetType) k :
  is_Some (build_cache l !! k) <-> k ∈ lower_names l.
Proof.
  unfold build_cache, lower_names.
  assert (H : forall acc : gmap string AssetType,
            is_Some (foldl (fun cache at' => <[lower (at_name at') := at']> cache)
                       acc l !! k)
            <-> is_Some (acc !! k) \/ k ∈ (fun t => lower (at_name t)) <$> l).
  { induction l as [|t l IH]; intros acc; simpl.
    - split; [auto|]. intros [H|H]; [exact H|inversion H].
    - rewrite IH, elem_of_cons.
      destruct (decide (lower (at_name t) = k)) as [<-|Hne].
      + rewrite lookup_insert_eq. split; [|intros _; left; eauto]. auto.
      + rewrite lookup_insert_ne by exact Hne. split.
        * intros [H|H]; auto.
        * intros [H|[H|H]]; [auto|congruence|auto]. }
  rewrite H, lookup_empty. split; [intros [[? H']|H']; [discriminate|exact H']|auto].
Qed.

(** X13. A call only appends to the asset-type table: the types that were
    there stay as they are, in place, and the appended ones have
    lower-cased names that differ from each other and from those of the
    types that were there. *)
Theorem asset_types_only_appended db p f cm fn :
  exists new,
    asset_types (final_db (import_assets_from_csv db p f cm fn))
    = asset_types db ++ new
    /\ NoDup (lower_names new)
    /\ forall k, k ∈ lower_names new -> k ∉ lower_names (asset_types db).
Proof.
  destruct (final_db_cases db p f cm fn) as [[_ Hf]|Hf]; rewrite Hf.
  2:{ exists []. rewrite app_nil_r. split; [reflexivity|].
      split; [apply NoDup_nil_2|]. intros k Hk. inversion Hk. }
  simpl. unfold loop_end.
  assert (H : exists new,
            asset_types (st_db (process_rows (loop_context db p cm) 2
                                  (DictReader_rows f) (loop_start db p f fn)))
            = asset_types db ++ new
            /\ NoDup (lower_names new)
            /\ (forall k, k ∈ lower_names new ->
                  k ∉ lower_names (asset_types db))
            /\ (forall k,
                  is_Some (st_cache (process_rows (loop_context db p cm) 2
                                       (DictReader_rows f)
                                       (loop_start db p f fn)) !! k)
                  <-> k ∈ lower_names (asset_types db ++ new))).
  { apply (process_rows_invariant
             (fun st => exists new,
                asset_types (st_db st) = asset_types db ++ new
                /\ NoDup (lower_names new)
                /\ (forall k, k ∈ lower_names new ->
                      k ∉ lower_names (asset_types db))
                /\ (forall k, is_Some (st_cache st !! k)
                              <-> k ∈ lower_names (asset_types db ++ new)))).
    - intros n row st (new & Ht & Hnd & Hdisj & Hdom).
      destruct (process_row_types p (merge_mapping cm)
                  (length (import_batches db)) n row st)
        as [(Ht' & Hc')|(tn & Hnone & Ht' & Hc')]; unfold loop_context.
      + exists new. rewrite Ht', Hc'. auto.
      + assert (Hfresh : lower tn ∉ lower_names (asset_types db ++ new)).
        { intros Hin. apply Hdom in Hin. rewrite Hnone in Hin.
          destruct Hin as [? Hin]. discriminate. }
        unfold lower_names in Hfresh. rewrite fmap_app in Hfresh.
        apply not_elem_of_app in Hfresh as [Hf0 Hf1].
        exists (new ++ [{| at_name := tn |}]).
        rewrite Ht', Ht, Hc', <- app_assoc. split; [reflexivity|].
        unfold lower_names. rewrite !fmap_app. simpl.
        split; [|split].
        * apply NoDup_app. split; [exact Hnd|]. split; [|apply NoDup_singleton].
          intros k Hk Hk'. apply list_elem_of_singleton in Hk'. subst k.
          contradiction.
        * intros k Hk. apply elem_of_app in Hk as [Hk|Hk]; [apply Hdisj, Hk|].
          apply list_elem_of_singleton in Hk. subst k. exact Hf0.
        * intros k. rewrite !elem_of_app, list_elem_of_singleton.
          destruct (decide (lower tn = k)) as [<-|Hne].
          -- rewrite lookup_insert_eq. split; [auto|eauto].
          -- rewrite lookup_insert_ne by exact Hne. rewrite Hdom.
             unfold lower_names. rewrite fmap_app, elem_of_app.
             split; [intros [H|H]; auto|].
             intros [H|[H|H]]; [auto|auto|congruence].
    - exists []. simpl. rewrite app_nil_r. split; [reflexivity|].
      split; [apply NoDup_nil_2|]. split; [intros k Hk; inversion Hk|].
      intros k. apply build_cache_keys. }
  destruct H as (new & Ht & Hnd & Hdisj & _). exists new. auto.
Qed.

Lemma filter_idempotent {A} (P : A -> Prop) `{forall x, Decision (P x)}
    (l : list A) :
  filter P (filter P l) = filter P l.
Proof.
  induction l as [|a l IH]; [reflexivity|].
  rewrite filter_cons. destruct (decide (P a)) as [Ha|Ha]; [|exact IH].
  rewrite filter_cons_True by exact Ha. rewrite IH. reflexivity.
Qed.

(** X20. Blank records change nothing: a file and the same file without
    its blank records give the same outcome, row numbers included. *)
Theorem blank_records_ignored db p f cm fn :
  import_assets_from_csv db p (without_blank_records f) cm fn
  = import_assets_from_csv db p f cm fn.
Proof.
  assert (Hf : fieldnames (without_blank_records f) = fieldnames f).
  { unfold fieldnames, without_blank_records. simpl.
    destruct (records f); reflexivity. }
  assert (Hr : DictReader_rows (without_blank_records f) = DictReader_rows f).
  { unfold DictReader_rows, without_blank_records. simpl.
    destruct (records f) as [|fns data]; [reflexivity|].
    rewrite filter_idempotent. reflexivity. }
  unfold import_assets_from_csv. rewrite Hf, Hr. reflexivity.
Qed.

End InvariantExtras.

(** * The permission class *)

Section PermissionExtras.

Import Permissions.

(** X21. [has_permission] grants access, by a truthy value, exactly when
    DEBUG is on or the request has a user who is authenticated. *)
Theorem permission_iff_debug_or_authenticated (DEBUG : bool) (request : Request) :
  truthy (has_permission DEBUG request) = true
  <-> DEBUG = true
      \/ exists u, user request = Some u /\ is_authenticated u = true.
Proof.
  unfold has_permission. destruct DEBUG; simpl.
  - split; auto.
  - destruct (user request) as [u|]; simpl.
    + destruct (is_authenticated u) eqn:Hu; simpl.
      * split; [|reflexivity]. intros _. right. exists u. auto.
      * split; [discriminate|].
        intros [H|(u' & Heq & H)]; [discriminate|].
        injection Heq as <-. congruence.
    + split; [discriminate|]. intros [H|(u' & Heq & _)]; discriminate.
Qed.

End PermissionExtras.

(** * The seeding migration *)

Section MigrationExtras.

Import SeedMigration.
Local Open Scope list_scope.

Lemma filter_name_nil_iff n (table : list AssetType) :
  filter (fun t => name t = n) table = [] <-> n ∉ name <$> table.
Proof.
  induction table as [|t table IH].
  - split; [intros _; apply not_elem_of_nil|reflexivity].
  - rewrite filter_cons, fmap_cons, not_elem_of_cons.
    destruct (decide (name t = n)) as [Hk|Hk].
    + split; [discriminate|]. intros [Hne _]. congruence.
    + rewrite IH. split; [intros H; split; [congruence|exact H]|tauto].
Qed.

Lemma filter_name_unique n (table : list AssetType) :
  NoDup (name <$> table) ->
  length (filter (fun t => name t = n) table) <= 1.
Proof.
  induction table as [|t table IH]; intros Hnd; [simpl; lia|].
  rewrite fmap_cons in Hnd. apply NoDup_cons in Hnd as [Hni Hnd].
  rewrite filter_cons.
  destruct (decide (name t = n)) as [Hk|Hk]; [|auto].
  subst n. apply filter_name_nil_iff in Hni. rewrite Hni. simpl. lia.
Qed.

Lemma filter_ext_in {A} (P Q : A -> Prop) `{forall x, Decision (P x)}
    `{forall x, Decision (Q x)} (l : list A) :
  Forall (fun x => P x <-> Q x) l -> filter P l = filter Q l.
Proof.
  induction 1 as [|x l Hx _ IH]; [reflexivity|].
  rewrite !filter_cons, IH.
  destruct (decide (P x)), (decide (Q x)); tauto.
Qed.

Lemma get_or_create_unique d (table : list AssetType) :
  NoDup (name <$> table) ->
  get_or_create d table
  = inr (if decide (name (row_of d) ∈ name <$> table) then table
         else table ++ [row_of d]).
Proof.
  intros Hnd. unfold get_or_create. set (n := name (row_of d)).
  pose proof (filter_name_unique n table Hnd) as Hlen.
  pose proof (filter_name_nil_iff n table) as Hnil.
  destruct (filter (fun t => name t = n) table) as [|x [|y l]] eqn:Hf.
  - rewrite decide_False by (apply Hnil; reflexivity). reflexivity.
  - rewrite decide_True; [reflexivity|].
    destruct (decide (n ∈ name <$> table)) as [Hin|Hni]; [exact Hin|].
    apply Hnil in Hni. discriminate.
  - simpl in Hlen. lia.
Qed.

Lemma seed_loop_unique ds (table : list AssetType) :
  NoDup (name <$> table) ->
  NoDup (name <$> (row_of <$> ds)) ->
  seed_loop ds table
  = inr (table ++ filter (fun r => name r ∉ name <$> table) (row_of <$> ds)).
Proof.
  revert table. induction ds as [|d ds IH]; intros table Hnd Hds.
  - simpl. rewrite app_nil_r. reflexivity.
  - cbn [seed_loop]. rewrite get_or_create_unique by exact Hnd.
    rewrite !fmap_cons in Hds. apply NoDup_cons in Hds as [Hd Hds].
    rewrite fmap_cons, filter_cons.
    destruct (decide (name (row_of d) ∈ name <$> table)) as [Hin|Hni].
    + rewrite IH by assumption.
      rewrite decide_False by (intros H; apply H, Hin). reflexivity.
    + rewrite decide_True by exact Hni. rewrite IH; [|
        rewrite fmap_app; apply NoDup_app; split; [exact Hnd|]; split;
        [|apply NoDup_singleton];
        intros k Hk Hk'; apply list_elem_of_singleton in Hk'; subst k;
        contradiction | exact Hds].
      rewrite <- app_assoc. simpl. do 3 f_equal.
      apply filter_ext_in, Forall_forall. intros r Hr.
      rewrite fmap_app, elem_of_app. simpl. rewrite list_elem_of_singleton.
      split; [tauto|]. intros H [H'|H']; [contradiction|].
      apply Hd. rewrite <- H'. apply list_elem_of_fmap. exists r. auto.
Qed.


Lemma default_names_distinct : NoDup (name <$> default_rows).
Proof. refine (bool_decide_unpack _ _). vm_compute. exact I. Qed.

Lemma seed_result (table : list AssetType) :
  NoDup (name <$> table) ->
  seed_asset_types table
  = inr (table ++ filter (fun r => name r ∉ name <$> table) default_rows).
Proof.
  intros Hnd. apply seed_loop_unique; [exact Hnd|apply default_names_distinct].
Qed.

Lemma seeded_unique (table : list AssetType) :
  NoDup (name <$> table) ->
  NoDup (name <$> (table
                   ++ filter (fun r => name r ∉ name <$> table) default_rows)).
Proof.
  intros Hnd. rewrite fmap_app. apply NoDup_app. split; [exact Hnd|]. split.
  - intros k Hk Hk'. apply list_elem_of_fmap in Hk' as (r & -> & Hr).
    apply list_elem_of_filter in Hr as [Hr _]. contradiction.
  - refine (sublist_NoDup _ (name <$> default_rows) default_names_distinct _).
    apply fmap_sublist, sublist_filter.
Qed.

(** X22. On a table with unique names the seeding does not raise; it
    keeps every row as it is, in place, and appends, in the order of the
    list, the default types whose names are not there yet.  The names
    are unique afterwards and every default name is present. *)
Theorem seed_adds_missing_defaults (table : list AssetType) :
  NoDup (name <$> table) ->
  seed_asset_types table
  = inr (table ++ filter (fun r => name r ∉ name <$> table) default_rows)
  /\ NoDup (name <$> (table
                      ++ filter (fun r => name r ∉ name <$> table) default_rows))
  /\ forall r, r ∈ default_rows ->
       name r ∈ name <$> (table ++ filter (fun r => name r ∉ name <$> table)
                                     default_rows).
Proof.
  intros Hnd. split; [apply seed_result, Hnd|]. split.
  - apply seeded_unique, Hnd.
  - intros r Hr. rewrite fmap_app, elem_of_app.
    destruct (decide (name r ∈ name <$> table)) as [Hin|Hni]; [auto|].
    right. apply list_elem_of_fmap. exists r. split; [reflexivity|].
    apply list_elem_of_filter. auto.
Qed.

Lemma filter_none_in {A} (P : A -> Prop) `{forall x, Decision (P x)}
    (l : list A) :
  Forall (fun x => ~ P x) l -> filter P l = [].
Proof.
  induction 1 as [|x l Hx _ IH]; [reflexivity|].
  rewrite filter_cons_False by exact Hx. exact IH.
Qed.

(** X23. Seeding is idempotent: on what a first seeding yields, a second
    one yields the same table. *)
Theorem seed_is_idempotent (table seeded : list AssetType) :
  NoDup (name <$> table) ->
  seed_asset_types table = inr seeded ->
  seed_asset_types seeded = inr seeded.
Proof.
  intros Hnd Hs. rewrite (seed_result table Hnd) in Hs. injection Hs as <-.
  set (T := table ++ filter (fun r => name r ∉ name <$> table) default_rows).
  assert (HT : NoDup (name <$> T)) by (apply seeded_unique, Hnd).
  rewrite (seed_result T HT). f_equal.
  rewrite (filter_none_in (fun r => name r ∉ name <$> T)); [apply app_nil_r|].
  apply Forall_forall. intros r Hr Hout. apply Hout.
  unfold T. rewrite fmap_app, elem_of_app.
  destruct (decide (name r ∈ name <$> table)) as [Hin|Hni]; [auto|].
  right. apply list_elem_of_fmap. exists r. split; [reflexivity|].
  apply list_elem_of_filter. auto.
Qed.

Lemma remove_default_rows (l : list AssetType) :
  l ⊆ default_rows -> remove_asset_types l = [].
Proof.
  intros Hsub. unfold remove_asset_types. apply filter_none_in, Forall_forall.
  intros r Hr Hout. apply Hsub in Hr. apply Hout.
  revert Hr. unfold default_rows, defaults. simpl.
  rewrite !elem_of_cons. intros [->|[->|[->|H]]]; [| | |inversion H]; simpl;
    set_solver.
Qed.

(** X24. The reverse migration after the forward one leaves what the
    reverse migration alone would leave; it gives back the table from
    before exactly when that table had none of the three default
    names. *)
Theorem remove_after_seed (table seeded : list AssetType) :
  NoDup (name <$> table) ->
  seed_asset_types table = inr seeded ->
  remove_asset_types seeded = remove_asset_types table
  /\ (Forall (fun t => name t ∉ name <$> default_rows) table ->
      remove_asset_types seeded = table).
Proof.
  intros Hnd Hs. rewrite (seed_result table Hnd) in Hs. injection Hs as <-.
  assert (Heq : remove_asset_types
                  (table ++ filter (fun r => name r ∉ name <$> table)
                              default_rows)
                = remove_asset_types table).
  { unfold remove_asset_types at 1. rewrite filter_app.
    fold (remove_asset_types table).
    fold (remove_asset_types
            (filter (fun r => name r ∉ name <$> table) default_rows)).
    rewrite (remove_default_rows
               (filter (fun r => name r ∉ name <$> table) default_rows));
      [apply app_nil_r|].
    intros r Hr. apply list_elem_of_filter in Hr as [_ Hr]. exact Hr. }
  split; [exact Heq|].
  intros Hall. rewrite Heq. unfold remove_asset_types.
  clear Heq Hnd. induction Hall as [|t table Ht _ IH]; [reflexivity|].
  rewrite filter_cons_True; [rewrite IH; reflexivity|].
  exact Ht.
Qed.

End MigrationExtras.

(** * The further properties on the sample files *)

Section ExtraScenarios.

Import Py Validators CsvImporter Notions Samples.
Local Open Scope list_scope.

Lemma validators_ignore_name_case_witness :
  PDFFileValidator_call validate_pdf None upper_named_pdf
  = PDFFileValidator_call validate_pdf None lower_named_pdf
  /\ ImageFileValidator_call validate_image None upper_named_pdf
     = ImageFileValidator_call validate_image None lower_named_pdf.
Proof.
  apply (validators_ignore_name_case validate_pdf validate_image None
           upper_named_pdf lower_named_pdf); reflexivity.
Defined.

Lemma missing_columns_all_listed_witness :
  import_assets_from_csv empty_db 1 only_col_file None None
  = Propagates
      (ValueError
         "Missing columns in CSV: asset_id (mapped to 'asset_id'), asset_type (mapped to 'asset_type'), x (mapped to 'x'), y (mapped to 'y')")
      empty_db.
Proof.
  apply (missing_columns_all_listed empty_db 1 only_col_file None None
           ["only_col"]).
  - reflexivity.
  - vm_compute. discriminate.
Defined.

Lemma reader_row_cell_by_position_witness :
  row_get (DictReader_row header short_record) "x" = VStr "1"
  /\ row_get (DictReader_row header short_record) "y" = VNone.
Proof.
  assert (Hnd : NoDup header).
  { refine (bool_decide_unpack _ _). vm_compute. exact I. }
  split.
  - apply (reader_row_cell_by_position header short_record 2 "x" Hnd).
    reflexivity.
  - apply (reader_row_cell_by_position header short_record 3 "y" Hnd).
    reflexivity.
Defined.

Lemma asset_type_lookup_ignores_case_witness :
  exists st1 t,
    resolve_asset_type "Valve" (loop_start empty_db 1 basic_file None)
    = (st1, inr t)
    /\ resolve_asset_type "VALVE" st1 = (st1, inr t)
    /\ asset_types (st_db st1) = [{| at_name := "Valve" |}].
Proof.
  eexists _, _. split; [vm_compute; reflexivity|]. split; [|reflexivity].
  apply (asset_type_lookup_ignores_case "Valve" "VALVE"
           (loop_start empty_db 1 basic_file None)); reflexivity.
Defined.

Lemma asset_table_grows_by_created_witness :
  length (assets (final_db
                    (import_assets_from_csv db_with_A 1 basic_file None None)))
  = length (assets db_with_A) + 2.
Proof.
  exact (asset_table_grows_by_created db_with_A 1 basic_file None None
           _ _ eq_refl).
Defined.

Lemma unique_keys_kept_witness :
  unique_keys
    (final_db (import_assets_from_csv db_with_A 1 duplicate_file None None)).
Proof.
  apply unique_keys_kept.
  refine (bool_decide_unpack _ _). vm_compute. exact I.
Defined.

Lemma every_row_counted_once_witness :
  exists res db',
    import_assets_from_csv empty_db 1 short_row_file None None = Returns res db'
    /\ length (errors res) + created res + updated res = 2
    /\ created res + updated res = length (r_assets res).
Proof.
  eexists _, _. split; [vm_compute; reflexivity|].
  exact (every_row_counted_once empty_db 1 short_row_file None None
           _ _ eq_refl).
Defined.

Lemma imported_assets_belong_to_the_batch_witness :
  a_import_batch first_asset = Some 0
  /\ exists b,
       import_batches
         (final_db (import_assets_from_csv empty_db 1 basic_file None None))
       !! 0 = Some b
       /\ ib_project b = 1%Z /\ ib_asset_count b = 2.
Proof.
  apply (imported_assets_belong_to_the_batch empty_db 1 basic_file None None
           _ _ first_entry first_asset eq_refl).
  - vm_compute. constructor.
  - vm_compute. constructor.
  - reflexivity.
Defined.

Lemma assets_kept_and_created_appended_witness :
  key_adjusted
  <$> assets (final_db
                (import_assets_from_csv db_with_A 1 basic_file None None))
  = [((1%Z, "A"), None); ((1%Z, "A1"), None); ((1%Z, "A2"), None)].
Proof.
  exact (assets_kept_and_created_appended db_with_A 1 basic_file None None
           _ _ eq_refl).
Defined.

Lemma seed_adds_missing_defaults_witness :
  SeedMigration.name
  <$> (custom_types
       ++ filter (fun r => SeedMigration.name r
                           ∉ SeedMigration.name <$> custom_types)
            SeedMigration.default_rows)
  = ["VSL"; "Hydrant"; "TN Intersection"; "CCTV"]
  /\ SeedMigration.seed_asset_types custom_types
     = inr (custom_types
            ++ filter (fun r => SeedMigration.name r
                                ∉ SeedMigration.name <$> custom_types)
                 SeedMigration.default_rows).
Proof.
  split; [vm_compute; reflexivity|].
  apply (seed_adds_missing_defaults custom_types).
  refine (bool_decide_unpack _ _). vm_compute. exact I.
Defined.

Lemma seed_is_idempotent_witness :
  exists seeded,
    SeedMigration.seed_asset_types custom_types = inr seeded
    /\ SeedMigration.seed_asset_types seeded = inr seeded.
Proof.
  eexists. split; [vm_compute; reflexivity|].
  apply (seed_is_idempotent custom_types).
  - refine (bool_decide_unpack _ _). vm_compute. exact I.
  - vm_compute. reflexivity.
Defined.

Lemma remove_after_seed_witness :
  exists seeded,
    SeedMigration.seed_asset_types custom_types = inr seeded
    /\ SeedMigration.remove_asset_types seeded
       = SeedMigration.remove_asset_types custom_types.
Proof.
  eexists. split; [vm_compute; reflexivity|].
  apply (remove_after_seed custom_types).
  - refine (bool_decide_unpack _ _). vm_compute. exact I.
  - vm_compute. reflexivity.
Defined.

End ExtraScenarios.

(** * White space in the asset id *)

Section BlankExtras.

Import Py CsvImporter Notions.
Local Open Scope list_scope.

Lemma lstrip_all_space (s : string) :
  all_space s = true -> lstrip_with isspace s = "".
Proof.
  induction s as [|c s IH]; [reflexivity|]. simpl.
  intros H. apply andb_prop in H as [Hc Hs]. rewrite Hc. apply IH, Hs.
Qed.

Lemma strip_all_space (s : string) : all_space s = true -> strip s = "".
Proof.
  intros H. unfold strip, strip_with. rewrite (lstrip_all_space s H).
  reflexivity.
Qed.

(** X25. An asset id of white space only counts as missing: when the
    four required cells of a row are strings and the asset id is blank,
    the iteration records [Row n: Missing asset_id (column '..')] for
    it, whatever the other cells hold, and changes nothing else. *)
Theorem blank_asset_id_is_missing p m pk n row st s tv xv yv :
  row_get row (mapping_get m "asset_id") = VStr s ->
  all_space s = true ->
  row_get row (mapping_get m "asset_type") = VStr tv ->
  row_get row (mapping_get m "x") = VStr xv ->
  row_get row (mapping_get m "y") = VStr yv ->
  process_row (make_context p m pk) n row st
  = with_error
      (row_prefix n ++ "Missing asset_id (column '"
       ++ mapping_get m "asset_id" ++ "')")%string st.
Proof.
  intros Hid Hs Hty Hx Hy.
  unfold process_row, row_body, with_error. simpl.
  unfold bind at 1. rewrite Hid. simpl.
  unfold bind at 1. rewrite Hty. simpl.
  unfold bind at 1. rewrite Hx. simpl.
  unfold bind at 1. rewrite Hy. simpl.
  rewrite (strip_all_space s Hs). simpl.
  destruct st; reflexivity.
Qed.

Lemma blank_asset_id_is_missing_witness :
  process_row (make_context 1 (merge_mapping None) 0) 2
    (DictReader_row Samples.header ["  "; "T"; "abc"; "2"; ""])
    (loop_start Samples.empty_db 1 Samples.basic_file None)
  = with_error "Row 2: Missing asset_id (column 'asset_id')"
      (loop_start Samples.empty_db 1 Samples.basic_file None).
Proof.
  apply (blank_asset_id_is_missing 1 (merge_mapping None) 0 2 _ _
           "  " "T" "abc" "2"); reflexivity.
Defined.

End BlankExtras.
